(** * beads: [CreateIssueImport] of internal/storage/sqlite/import_tx.go

    A shallow embedding of the transactional import path and the properties
    the specification states about it.  The routine mutates the issue it is
    handed through a pointer and writes through the transaction's
    connection; both are threaded explicitly, and both survive an error
    return, exactly as the Go code leaves them. *)

From stdpp Require Import base gmap strings list pretty.
From Stdlib Require Import ZArith Lia.

Local Open Scope Z_scope.
Local Open Scope string_scope.

(** ** Errors

    Go errors as the routine builds and inspects them: the [sql.ErrNoRows]
    sentinel (compared with [==]), a plain message, and a cause wrapped by
    [fmt.Errorf("<ctx>: %w", err)]. *)
Inductive error : Type :=
| ErrNoRows
| ErrMsg (msg : string)
| ErrWrap (ctx : string) (cause : error).

Fixpoint Error (e : error) : string :=
  match e with
  | ErrNoRows => "sql: no rows in result set"
  | ErrMsg msg => msg
  | ErrWrap ctx cause => ctx +:+ ": " +:+ Error cause
  end.

(** [err == sql.ErrNoRows] on a possibly nil error. *)
Definition isErrNoRows (err : option error) : bool :=
  match err with
  | Some ErrNoRows => true
  | _ => false
  end.

(** [errors.Unwrap]. *)
Definition Unwrap (e : error) : option error :=
  match e with
  | ErrWrap _ cause => Some cause
  | _ => None
  end.

(** ** Time

    A [time.Time] is an instant; it is modelled by the number of nanoseconds
    that separate it from the zero instant, so that [IsZero], [After] and
    [Add] are the comparisons and the sum on [Z]. *)
Module Time.
Definition t : Type := Z.
Definition Duration : Type := Z.
Definition Second : Duration := 1000000000.
Definition IsZero (x : t) : bool := Z.eqb x 0.
Definition After (x u : t) : bool := Z.ltb u x.
Definition Add (x : t) (d : Duration) : t := (x + d)%Z.
End Time.

(** ** Issues

    The fields of [types.Issue] that the routine reads or writes, with the
    title and type that validation and fingerprinting look at.  [Status] is
    a string type in Go; [ClosedAt] and [DeletedAt] are [*time.Time]. *)
Definition Status : Type := string.
Definition StatusOpen : Status := "open".
Definition StatusClosed : Status := "closed".
Definition StatusTombstone : Status := "tombstone".

Record Issue : Type := mkIssue {
  ID : string;
  ContentHash : string;
  Title : string;
  Status_ : Status;
  IssueType : string;
  CreatedAt : Time.t;
  UpdatedAt : Time.t;
  ClosedAt : option Time.t;
  DeletedAt : option Time.t;
  IDPrefix : string
}.

Definition set_ID (v : string) (i : Issue) : Issue :=
  mkIssue v (ContentHash i) (Title i) (Status_ i) (IssueType i)
          (CreatedAt i) (UpdatedAt i) (ClosedAt i) (DeletedAt i) (IDPrefix i).
Definition set_ContentHash (v : string) (i : Issue) : Issue :=
  mkIssue (ID i) v (Title i) (Status_ i) (IssueType i)
          (CreatedAt i) (UpdatedAt i) (ClosedAt i) (DeletedAt i) (IDPrefix i).
Definition set_CreatedAt (v : Time.t) (i : Issue) : Issue :=
  mkIssue (ID i) (ContentHash i) (Title i) (Status_ i) (IssueType i)
          v (UpdatedAt i) (ClosedAt i) (DeletedAt i) (IDPrefix i).
Definition set_UpdatedAt (v : Time.t) (i : Issue) : Issue :=
  mkIssue (ID i) (ContentHash i) (Title i) (Status_ i) (IssueType i)
          (CreatedAt i) v (ClosedAt i) (DeletedAt i) (IDPrefix i).
Definition set_ClosedAt (v : option Time.t) (i : Issue) : Issue :=
  mkIssue (ID i) (ContentHash i) (Title i) (Status_ i) (IssueType i)
          (CreatedAt i) (UpdatedAt i) v (DeletedAt i) (IDPrefix i).
Definition set_DeletedAt (v : option Time.t) (i : Issue) : Issue :=
  mkIssue (ID i) (ContentHash i) (Title i) (Status_ i) (IssueType i)
          (CreatedAt i) (UpdatedAt i) (ClosedAt i) v (IDPrefix i).

Definition isNil {A : Type} (p : option A) : bool :=
  match p with
  | None => true
  | Some _ => false
  end.

(** ** The in-place repairs (import_tx.go, lines 25-51 and 58-61) *)

(** Lines 26-32: each timestamp is replaced by [now] when it is zero. *)
Definition setTimestamps (now : Time.t) (issue : Issue) : Issue :=
  let issue := if Time.IsZero (CreatedAt issue) then set_CreatedAt now issue else issue in
  let issue := if Time.IsZero (UpdatedAt issue) then set_UpdatedAt now issue else issue in
  issue.

(** Lines 36-39 and 45-48: the later of the two timestamps. *)
Definition maxTime (issue : Issue) : Time.t :=
  let maxTime := CreatedAt issue in
  if Time.After (UpdatedAt issue) maxTime then UpdatedAt issue else maxTime.

(** Lines 35-42. *)
Definition fixClosedAt (issue : Issue) : Issue :=
  if String.eqb (Status_ issue) StatusClosed && isNil (ClosedAt issue) then
    let closedAt := Time.Add (maxTime issue) Time.Second in
    set_ClosedAt (Some closedAt) issue
  else issue.

(** Lines 44-51. *)
Definition fixDeletedAt (issue : Issue) : Issue :=
  if String.eqb (Status_ issue) StatusTombstone && isNil (DeletedAt issue) then
    let deletedAt := Time.Add (maxTime issue) Time.Second in
    set_DeletedAt (Some deletedAt) issue
  else issue.

(** ** The transaction monad

    The state is the connection of the surrounding transaction together
    with the issue behind the caller's pointer.  A computation returns the
    state it reached and either the error it returned or a value: an error
    stops the routine but undoes nothing. *)
Record Tx (Conn : Type) : Type := mkTx { conn : Conn; issue : Issue }.
Arguments mkTx {Conn} _ _.
Arguments conn {Conn} _.
Arguments issue {Conn} _.

Definition M (Conn A : Type) : Type := Tx Conn -> Tx Conn * (error + A).

Section Monad.
Context {Conn : Type}.

Definition ret {A} (a : A) : M Conn A := fun s => (s, inr a).

Definition bind {A B} (m : M Conn A) (k : A -> M Conn B) : M Conn B :=
  fun s =>
    match m s with
    | (s', inl e) => (s', inl e)
    | (s', inr a) => k a s'
    end.

Definition fail {A} (e : error) : M Conn A := fun s => (s, inl e).

(** The issue as it currently is behind the pointer. *)
Definition getIssue : M Conn Issue := fun s => (s, inr (issue s)).

(** An assignment through the pointer. *)
Definition update (f : Issue -> Issue) : M Conn unit :=
  fun s => (mkTx (conn s) (f (issue s)), inr tt).

(** A read on the connection; its error is wrapped with [ctx]. *)
Definition query {A} (ctx : string) (f : Conn -> error + A) : M Conn A :=
  fun s =>
    match f (conn s) with
    | inl e => (s, inl (ErrWrap ctx e))
    | inr a => (s, inr a)
    end.

(** A call that may write on the connection and yields a value. *)
Definition call {A} (ctx : string) (f : Conn -> Conn * (error + A)) : M Conn A :=
  fun s =>
    match f (conn s) with
    | (c, inl e) => (mkTx c (issue s), inl (ErrWrap ctx e))
    | (c, inr a) => (mkTx c (issue s), inr a)
    end.

(** A write on the connection that only reports an error. *)
Definition exec (ctx : string) (f : Conn -> Conn * option error) : M Conn unit :=
  fun s =>
    match f (conn s) with
    | (c, Some e) => (mkTx c (issue s), inl (ErrWrap ctx e))
    | (c, None) => (mkTx c (issue s), inr tt)
    end.

(** A pure check. *)
Definition check (ctx : string) (r : option error) : M Conn unit :=
  match r with
  | Some e => fail (ErrWrap ctx e)
  | None => ret tt
  end.
End Monad.

Notation "'do' x <- m ; k" := (bind m (fun x => k))
  (at level 10, x at level 100, m at level 100, k at level 200).
Notation "'do' m ; k" := (bind m (fun _ => k))
  (at level 10, m at level 100, k at level 200).

(** ** CreateIssueImport *)

Definition errNotInitialized : error :=
  ErrMsg "database not initialized: issue_prefix config is missing (run 'bd init --prefix <prefix>' first)".

(** Lines 72-75. *)
Definition effectivePrefix (configPrefix : string) (issue : Issue) : string :=
  let prefix := configPrefix in
  if negb (String.eqb (IDPrefix issue) "") then configPrefix +:+ "-" +:+ IDPrefix issue
  else prefix.

(** The collaborators of the routine over the connection [t.conn] of the
    transaction.  They live in other files of the package; the routine is
    verified against their signatures.  Reads return a value or an error
    and leave the connection alone; the identifier generator and the three
    writes return the connection they leave behind, also when they fail.
    None of them assigns through the issue pointer. *)
Class Backend (Conn : Type) : Type := {
  GetCustomStatuses : Conn -> error + list string;
  GetCustomTypes : Conn -> error + list string;
  ValidateWithCustom : Issue -> list string -> list string -> option error;
  ComputeContentHash : Issue -> string;
  (** [QueryRowContext(ctx, `SELECT value FROM config WHERE key = ?`, key).Scan(&dest)]
      on a fresh [dest]: what [dest] holds afterwards, and the error. *)
  QueryConfig : Conn -> string -> string * option error;
  GenerateIssueID : Conn -> string -> Issue -> string -> Conn * (error + string);
  ValidateIssueIDPrefix : string -> string -> option error;
  insertIssueStrict : Conn -> Issue -> Conn * option error;
  recordCreatedEvent : Conn -> Issue -> string -> Conn * option error;
  markDirty : Conn -> string -> Conn * option error
}.

Section CreateIssueImport.
Context {Conn : Type} {B : Backend Conn}.

(** Lines 58-61. *)
Definition computeHash (issue : Issue) : Issue :=
  if String.eqb (ContentHash issue) "" then set_ContentHash (ComputeContentHash issue) issue
  else issue.

(** Lines 63-70: the prefix read, with its two failures. *)
Definition readConfigPrefix : M Conn string :=
  fun s =>
    let '(configPrefix, err) := QueryConfig (conn s) "issue_prefix" in
    if isErrNoRows err || String.eqb configPrefix "" then (s, inl errNotInitialized)
    else match err with
         | Some e => (s, inl (ErrWrap "failed to get config" e))
         | None => (s, inr configPrefix)
         end.

(** Lines 77-88: generate the identifier, or check the one supplied. *)
Definition resolveID (prefix actor : string) (skipPrefixValidation : bool) : M Conn unit :=
  do issue <- getIssue ;
  if String.eqb (ID issue) "" then
    do generatedID <- call "failed to generate issue ID"
                       (fun c => GenerateIssueID c prefix issue actor) ;
    update (set_ID generatedID)
  else if negb skipPrefixValidation then
    check "failed to validate issue ID prefix" (ValidateIssueIDPrefix (ID issue) prefix)
  else ret tt.

(** Lines 98-110: the three writes. *)
Definition persist (actor : string) : M Conn unit :=
  do issue <- getIssue ;
  do exec "failed to insert issue" (fun c => insertIssueStrict c issue) ;
  do exec "failed to record creation event" (fun c => recordCreatedEvent c issue actor) ;
  exec "failed to mark issue dirty" (fun c => markDirty c (ID issue)).

(** The routine; [now] is the reading of [time.Now()] at line 26. *)
Definition CreateIssueImport (now : Time.t) (actor : string)
    (skipPrefixValidation : bool) : M Conn unit :=
  do customStatuses <- query "failed to get custom statuses" GetCustomStatuses ;
  do customTypes <- query "failed to get custom types" GetCustomTypes ;
  do update (setTimestamps now) ;
  do update fixClosedAt ;
  do update fixDeletedAt ;
  do issue <- getIssue ;
  do check "validation failed" (ValidateWithCustom issue customStatuses customTypes) ;
  do update computeHash ;
  do configPrefix <- readConfigPrefix ;
  do issue <- getIssue ;
  let prefix := effectivePrefix configPrefix issue in
  do resolveID prefix actor skipPrefixValidation ;
  persist actor.

(** The issue as lines 25-51 leave it. *)
Definition repaired (now : Time.t) (i : Issue) : Issue :=
  fixDeletedAt (fixClosedAt (setTimestamps now i)).

(** The issue as lines 25-61 leave it when validation passes. *)
Definition prepared (now : Time.t) (i : Issue) : Issue :=
  computeHash (repaired now i).
End CreateIssueImport.

(** ** A store to run the routine on

    The collaborators are not part of import_tx.go.  To evaluate the
    routine, they are given here the behaviour the specification describes
    for them, over a store made of the tables the routine touches. *)
Module Store.
Record Event : Type := mkEvent {
  ev_issue_id : string;
  ev_type : string;
  ev_actor : string
}.

Record t : Type := mk {
  config : gmap string string;
  custom_statuses : list string;
  custom_types : list string;
  issues : gmap string Issue;
  events : list Event;
  dirty_issues : gset string
}.

Definition memb (x : string) (l : list string) : bool := existsb (String.eqb x) l.

(** Modelled from the spec: the vocabulary provider, read fresh from the
    store at each call. *)
Definition getCustomStatuses (s : t) : error + list string := inr (custom_statuses s).
Definition getCustomTypes (s : t) : error + list string := inr (custom_types s).

Definition builtinStatuses : list string := [StatusOpen; StatusClosed; StatusTombstone].
Definition builtinTypes : list string := ["bug"; "feature"; "task"; "epic"; "chore"].

(** Modelled from the spec: the validation of an issue; its status and
    its type must belong to the built-in or the custom vocabulary. *)
Definition validateWithCustom (i : Issue) (customStatuses customTypes : list string)
    : option error :=
  if negb (memb (Status_ i) (builtinStatuses ++ customStatuses)) then
    Some (ErrMsg ("invalid status: " +:+ Status_ i))
  else if negb (memb (IssueType i) (builtinTypes ++ customTypes)) then
    Some (ErrMsg ("invalid issue type: " +:+ IssueType i))
  else None.

(** Modelled from the spec: the content fingerprint, deterministic in the
    semantic fields; their serialisation stands for its hash. *)
Definition computeContentHash (i : Issue) : string :=
  Title i +:+ "|" +:+ Status_ i +:+ "|" +:+ IssueType i.

(** Modelled from the spec: the single key/value read of the namespace
    configuration; an absent key is [sql.ErrNoRows] and leaves the
    destination empty. *)
Definition queryConfig (s : t) (key : string) : string * option error :=
  match config s !! key with
  | Some value => (value, None)
  | None => ("", Some ErrNoRows)
  end.

(** Modelled from the spec: the identifier generator; the first free
    identifier [<prefix>-<n>], found without writing to the store. *)
Definition generateIssueID (s : t) (prefix : string) (i : Issue) (actor : string)
    : t * (error + string) :=
  let candidates :=
    map (fun n : nat => prefix +:+ "-" +:+ pretty n) (seq 1 (S (size (issues s)))) in
  match List.find (fun id => isNil (issues s !! id)) candidates with
  | Some id => (s, inr id)
  | None => (s, inl (ErrMsg "identifier sequence exhausted"))
  end.

(** Modelled from the spec: the prefix check; an identifier has the form
    [<namespace-prefix>-<sequence-or-key>]. *)
Definition validateIssueIDPrefix (id prefix : string) : option error :=
  if String.prefix (prefix +:+ "-") id then None
  else Some (ErrMsg ("issue ID " +:+ id +:+ " does not match configured prefix " +:+ prefix)).

(** Modelled from the spec: the strict insert; a collision on the
    identifier is an error and nothing is overwritten. *)
Definition insertStrict (s : t) (i : Issue) : t * option error :=
  match issues s !! ID i with
  | Some _ => (s, Some (ErrMsg "UNIQUE constraint failed: issues.id"))
  | None =>
      (mk (config s) (custom_statuses s) (custom_types s)
          (<[ID i := i]> (issues s)) (events s) (dirty_issues s), None)
  end.

(** Modelled from the spec: the audit log, append-only. *)
Definition recordCreated (s : t) (i : Issue) (actor : string) : t * option error :=
  (mk (config s) (custom_statuses s) (custom_types s)
      (issues s) (events s ++ [mkEvent (ID i) "created" actor]) (dirty_issues s), None).

(** Modelled from the spec: the dirty-marker set. *)
Definition markDirtyIssue (s : t) (id : string) : t * option error :=
  (mk (config s) (custom_statuses s) (custom_types s)
      (issues s) (events s) ({[id]} ∪ dirty_issues s), None).

Definition backend : Backend t :=
  Build_Backend t getCustomStatuses getCustomTypes validateWithCustom
    computeContentHash queryConfig generateIssueID validateIssueIDPrefix
    insertStrict recordCreated markDirtyIssue.

(** The same store behind a connection whose configuration read fails
    before a row is scanned: the destination is left untouched. *)
Definition failingConfig (e : error) : Backend t :=
  Build_Backend t getCustomStatuses getCustomTypes validateWithCustom
    computeContentHash (fun _ _ => ("", Some e)) generateIssueID validateIssueIDPrefix
    insertStrict recordCreated markDirtyIssue.

(** The same store behind a connection on which the dirty-marker write
    fails. *)
Definition failingMarker (e : error) : Backend t :=
  Build_Backend t getCustomStatuses getCustomTypes validateWithCustom
    computeContentHash queryConfig generateIssueID validateIssueIDPrefix
    insertStrict recordCreated (fun s _ => (s, Some e)).

(** The routine on this store. *)
Definition create (now : Time.t) (actor : string) (skipPrefixValidation : bool)
    : M t unit :=
  CreateIssueImport (B := backend) now actor skipPrefixValidation.

(** An empty store, and one initialised with [bd init --prefix PROJ]. *)
Definition empty : t := mk ∅ [] [] ∅ [] ∅.
Definition proj : t := mk {["issue_prefix" := "PROJ"]} [] [] ∅ [] ∅.

(** A reading of the clock. *)
Definition t0 : Time.t := 1700000000000000000.

(** Historical timestamps. *)
Definition t1 : Time.t := 1600000000000000000.
Definition t2 : Time.t := 1650000000000000000.

(** Issues to import: a draft without identifier or timestamps; the same
    under the sub-namespace [web]; a closed issue and a tombstone lacking
    their closing and deletion times; an issue with only [UpdatedAt] set;
    an issue of another namespace; and one with an unknown status. *)
Definition draft : Issue :=
  mkIssue "" "" "Fix the importer" StatusOpen "task" 0 0 None None "".
Definition webDraft : Issue :=
  mkIssue "" "" "Fix the importer" StatusOpen "task" 0 0 None None "web".
Definition closedIssue : Issue :=
  mkIssue "PROJ-7" "" "Old report" StatusClosed "bug" t1 t1 None None "".
Definition tombstone : Issue :=
  mkIssue "PROJ-8" "" "Removed report" StatusTombstone "bug" t1 t2 None None "".
Definition halfStamped : Issue :=
  mkIssue "PROJ-9" "" "Partly dated" StatusOpen "task" 0 t1 None None "".
Definition foreign : Issue :=
  mkIssue "OTHER-1" "" "From elsewhere" StatusOpen "task" t1 t2 None None "".
Definition bogus : Issue :=
  mkIssue "OTHER-1" "" "From elsewhere" "bogus" "task" t1 t2 None None "".
End Store.

(** ** The vocabulary of the properties *)

(** What a step leaves alone: every field but the one it may assign. *)
Definition sameBut (skip : Issue -> Issue -> Prop) (i j : Issue) : Prop :=
  skip i j /\
  ID j = ID i /\ Title j = Title i /\ Status_ j = Status_ i /\
  IssueType j = IssueType i /\ IDPrefix j = IDPrefix i.

(** *** How far a call gets *)

(** The calls that get as far as the prefix read. *)
Definition reachesConfig {Conn : Type} {B : Backend Conn}
    (now : Time.t) (c : Conn) (i : Issue) : Prop :=
  exists customStatuses customTypes,
    GetCustomStatuses c = inr customStatuses /\
    GetCustomTypes c = inr customTypes /\
    ValidateWithCustom (repaired now i) customStatuses customTypes = None.

(** The calls that get past it with the base namespace [base]. *)
Definition reachesResolve {Conn : Type} {B : Backend Conn}
    (now : Time.t) (c : Conn) (i : Issue) (base : string) : Prop :=
  reachesConfig now c i /\ QueryConfig c "issue_prefix" = (base, None) /\ base <> "".

(** *** The errors by step *)

Definition errConfig (e : error) : error := ErrWrap "failed to get config" e.

Definition errPrefixValidation (e : error) : error :=
  ErrWrap "failed to validate issue ID prefix" e.

Definition errGenerateID (e : error) : error :=
  ErrWrap "failed to generate issue ID" e.

(** *** The statements of the specification *)

(** The effective prefix as the specification words it. *)
Definition effectivePrefixSpec (base sub : string) : string :=
  if decide (sub = "") then base else base +:+ "-" +:+ sub.

(** The configuration key is absent ([sql.ErrNoRows]) or its value empty. *)
Definition prefixMissing {Conn : Type} {B : Backend Conn} (c : Conn) : Prop :=
  isErrNoRows (snd (QueryConfig c "issue_prefix")) = true \/
  fst (QueryConfig c "issue_prefix") = "".

(** The supplied identifier does not match the effective prefix: the check
    of the package turns it down with [e]. *)
Definition prefixMismatch {Conn : Type} {B : Backend Conn}
    (c : Conn) (i : Issue) (e : error) : Prop :=
  ID i <> "" /\
  ValidateIssueIDPrefix (ID i) (effectivePrefix (fst (QueryConfig c "issue_prefix")) i)
    = Some e.

(** The claim as the specification words it: the timestamps are defaulted
    only when both are zero, and both are kept when one of them is set. *)
Definition defaultedOnlyIfBothZero {Conn : Type} {B : Backend Conn}
    (now : Time.t) (actor : string) (skip : bool) (c : Conn) (i : Issue) : Prop :=
  let s' := fst (CreateIssueImport now actor skip (mkTx c i)) in
  Time.IsZero (CreatedAt i) && Time.IsZero (UpdatedAt i) = false ->
  CreatedAt (issue s') = CreatedAt i /\ UpdatedAt (issue s') = UpdatedAt i.

(** The claim as the specification words it: with the key absent or empty
    the call fails with the store-not-initialized error, the connection
    being left as it was. *)
Definition failsNotInitialized {Conn : Type} {B : Backend Conn}
    (now : Time.t) (actor : string) (skip : bool) (c : Conn) (i : Issue) : Prop :=
  prefixMissing c ->
  exists j, CreateIssueImport now actor skip (mkTx c i) = (mkTx c j, inl errNotInitialized).

(** The claim as the specification words it: a mismatching identifier and no
    skip make the call fail with the prefix-validation error, the connection
    being left as it was. *)
Definition failsPrefixValidation {Conn : Type} {B : Backend Conn}
    (now : Time.t) (actor : string) (c : Conn) (i : Issue) : Prop :=
  forall e, prefixMismatch c i e ->
  exists j, CreateIssueImport now actor false (mkTx c i) = (mkTx c j, inl (errPrefixValidation e)).

(** The claim as the specification words it: with a supplied identifier and
    [skipPrefixValidation] set, the call never fails with the
    prefix-validation error and goes on to the insert step, that is, its
    outcome is that of the three writes on the connection it was given. *)
Definition skipsToInsert {Conn : Type} {B : Backend Conn}
    (now : Time.t) (actor : string) (c : Conn) (i : Issue) : Prop :=
  ID i <> "" ->
  (forall e, snd (CreateIssueImport now actor true (mkTx c i)) <> inl (errPrefixValidation e)) /\
  exists j, CreateIssueImport now actor true (mkTx c i) = persist actor (mkTx c j).

(** *** A second import *)

(** The store after [Store.closedIssue] has been imported once. *)
Definition importedOnce : Store.t :=
  conn (fst (Store.create Store.t0 "alice" false (mkTx Store.proj Store.closedIssue))).

(** *** The steps of the routine and its outcomes *)

(** The steps that can return an error, in the order of the source. *)
Inductive Step : Type :=
| StepStatuses | StepTypes | StepValidation | StepConfig | StepGenerate
| StepPrefix | StepInsert | StepEvent | StepMarker.

(** The message under which each step wraps the error it got. *)
Definition stepContexts : list (string * Step) :=
  [("failed to get custom statuses", StepStatuses);
   ("failed to get custom types", StepTypes);
   ("validation failed", StepValidation);
   ("failed to get config", StepConfig);
   ("failed to generate issue ID", StepGenerate);
   ("failed to validate issue ID prefix", StepPrefix);
   ("failed to insert issue", StepInsert);
   ("failed to record creation event", StepEvent);
   ("failed to mark issue dirty", StepMarker)].

(** The step an error names, read off its message alone. *)
Definition failedStep (e : error) : option Step :=
  match e with
  | ErrNoRows => None
  | ErrMsg msg =>
      if String.eqb msg (Error errNotInitialized) then Some StepConfig else None
  | ErrWrap ctx _ =>
      option_map snd (List.find (fun p => String.eqb ctx (fst p)) stepContexts)
  end.

(** The steps that are handed the connection to write on. *)
Definition mayWrite (st : Step) : bool :=
  match st with
  | StepGenerate | StepInsert | StepEvent | StepMarker => true
  | _ => false
  end.

(** The identifier is settled: [c0] and [j] are the connection and the
    issue that lines 77-88 hand to the three writes. *)
Definition resolved {Conn : Type} {B : Backend Conn}
    (now : Time.t) (actor : string) (skip : bool) (c : Conn) (i : Issue)
    (base : string) (c0 : Conn) (j : Issue) : Prop :=
  (ID i = "" /\
   exists g, GenerateIssueID c (effectivePrefix base i) (prepared now i) actor = (c0, inr g) /\
             j = set_ID g (prepared now i)) \/
  (ID i <> "" /\ c0 = c /\ j = prepared now i /\
   (skip = true \/ ValidateIssueIDPrefix (ID i) (effectivePrefix base i) = None)).

(** The outcomes of a call, one rule per return statement of the source. *)
Inductive Outcome {Conn : Type} {B : Backend Conn}
    (now : Time.t) (actor : string) (skip : bool) (c : Conn) (i : Issue)
    : Tx Conn -> error + unit -> Prop :=
| OutStatuses e :
    GetCustomStatuses c = inl e ->
    Outcome now actor skip c i (mkTx c i) (inl (ErrWrap "failed to get custom statuses" e))
| OutTypes sts e :
    GetCustomStatuses c = inr sts ->
    GetCustomTypes c = inl e ->
    Outcome now actor skip c i (mkTx c i) (inl (ErrWrap "failed to get custom types" e))
| OutValidation sts tys e :
    GetCustomStatuses c = inr sts ->
    GetCustomTypes c = inr tys ->
    ValidateWithCustom (repaired now i) sts tys = Some e ->
    Outcome now actor skip c i (mkTx c (repaired now i)) (inl (ErrWrap "validation failed" e))
| OutNotInitialized v err :
    reachesConfig now c i ->
    QueryConfig c "issue_prefix" = (v, err) ->
    isErrNoRows err || String.eqb v "" = true ->
    Outcome now actor skip c i (mkTx c (prepared now i)) (inl errNotInitialized)
| OutConfig v e :
    reachesConfig now c i ->
    QueryConfig c "issue_prefix" = (v, Some e) ->
    isErrNoRows (Some e) || String.eqb v "" = false ->
    Outcome now actor skip c i (mkTx c (prepared now i)) (inl (errConfig e))
| OutGenerate base c' e :
    reachesResolve now c i base ->
    ID i = "" ->
    GenerateIssueID c (effectivePrefix base i) (prepared now i) actor = (c', inl e) ->
    Outcome now actor skip c i (mkTx c' (prepared now i)) (inl (errGenerateID e))
| OutPrefix base e :
    reachesResolve now c i base ->
    ID i <> "" ->
    skip = false ->
    ValidateIssueIDPrefix (ID i) (effectivePrefix base i) = Some e ->
    Outcome now actor skip c i (mkTx c (prepared now i)) (inl (errPrefixValidation e))
| OutInsert base c0 j c1 e :
    reachesResolve now c i base ->
    resolved now actor skip c i base c0 j ->
    insertIssueStrict c0 j = (c1, Some e) ->
    Outcome now actor skip c i (mkTx c1 j) (inl (ErrWrap "failed to insert issue" e))
| OutEvent base c0 j c1 c2 e :
    reachesResolve now c i base ->
    resolved now actor skip c i base c0 j ->
    insertIssueStrict c0 j = (c1, None) ->
    recordCreatedEvent c1 j actor = (c2, Some e) ->
    Outcome now actor skip c i (mkTx c2 j) (inl (ErrWrap "failed to record creation event" e))
| OutMarker base c0 j c1 c2 c3 e :
    reachesResolve now c i base ->
    resolved now actor skip c i base c0 j ->
    insertIssueStrict c0 j = (c1, None) ->
    recordCreatedEvent c1 j actor = (c2, None) ->
    markDirty c2 (ID j) = (c3, Some e) ->
    Outcome now actor skip c i (mkTx c3 j) (inl (ErrWrap "failed to mark issue dirty" e))
| OutDone base c0 j c1 c2 c3 :
    reachesResolve now c i base ->
    resolved now actor skip c i base c0 j ->
    insertIssueStrict c0 j = (c1, None) ->
    recordCreatedEvent c1 j actor = (c2, None) ->
    markDirty c2 (ID j) = (c3, None) ->
    Outcome now actor skip c i (mkTx c3 j) (inr tt).

(** *** More connections to run the routine on *)

(** The store behind a connection whose prefix read leaves [v] in the
    destination and returns [err]. *)
Definition scanning (v : string) (err : option error) : Backend Store.t :=
  Build_Backend Store.t Store.getCustomStatuses Store.getCustomTypes
    Store.validateWithCustom Store.computeContentHash (fun _ _ => (v, err))
    Store.generateIssueID Store.validateIssueIDPrefix
    Store.insertStrict Store.recordCreated Store.markDirtyIssue.

(** The store behind a connection on which the vocabulary cannot be read. *)
Definition failingVocabulary (e : error) : Backend Store.t :=
  Build_Backend Store.t (fun _ => inl e) Store.getCustomTypes
    Store.validateWithCustom Store.computeContentHash Store.queryConfig
    Store.generateIssueID Store.validateIssueIDPrefix
    Store.insertStrict Store.recordCreated Store.markDirtyIssue.

(** A closed issue that already carries its closing time and fingerprint. *)
Definition archived : Issue :=
  mkIssue "PROJ-3" "cafe" "Done long ago" StatusClosed "bug"
          Store.t1 Store.t1 (Some Store.t2) None "".

(** * Properties *)

(** ** Field equations of the repairs *)

Lemma maxTime_max (i : Issue) : maxTime i = Z.max (CreatedAt i) (UpdatedAt i).
Proof.
  unfold maxTime, Time.After.
  destruct (Z.ltb_spec (CreatedAt i) (UpdatedAt i)); lia.
Qed.

Lemma setTimestamps_CreatedAt now i :
  CreatedAt (setTimestamps now i) = if Time.IsZero (CreatedAt i) then now else CreatedAt i.
Proof.
  unfold setTimestamps.
  destruct (Time.IsZero (CreatedAt i)), (Time.IsZero (UpdatedAt i)) eqn:Hu;
    simpl; rewrite ?Hu; reflexivity.
Qed.

Lemma setTimestamps_UpdatedAt now i :
  UpdatedAt (setTimestamps now i) = if Time.IsZero (UpdatedAt i) then now else UpdatedAt i.
Proof.
  unfold setTimestamps.
  destruct (Time.IsZero (CreatedAt i)), (Time.IsZero (UpdatedAt i)) eqn:Hu;
    simpl; rewrite ?Hu; reflexivity.
Qed.

Lemma setTimestamps_frame now i :
  sameBut (fun i j => ContentHash j = ContentHash i /\ ClosedAt j = ClosedAt i /\
                      DeletedAt j = DeletedAt i) i (setTimestamps now i).
Proof.
  unfold sameBut, setTimestamps.
  destruct (Time.IsZero (CreatedAt i)); simpl;
    destruct (Time.IsZero (UpdatedAt _)); simpl; tauto.
Qed.

Lemma fixClosedAt_frame i :
  sameBut (fun i j => ContentHash j = ContentHash i /\ CreatedAt j = CreatedAt i /\
                      UpdatedAt j = UpdatedAt i /\ DeletedAt j = DeletedAt i) i (fixClosedAt i).
Proof.
  unfold sameBut, fixClosedAt.
  destruct (_ && _); simpl; tauto.
Qed.

Lemma fixDeletedAt_frame i :
  sameBut (fun i j => ContentHash j = ContentHash i /\ CreatedAt j = CreatedAt i /\
                      UpdatedAt j = UpdatedAt i /\ ClosedAt j = ClosedAt i) i (fixDeletedAt i).
Proof.
  unfold sameBut, fixDeletedAt.
  destruct (_ && _); simpl; tauto.
Qed.

Lemma fixClosedAt_ClosedAt i :
  Status_ i = StatusClosed -> ClosedAt i = None ->
  ClosedAt (fixClosedAt i) = Some (Time.Add (maxTime i) Time.Second).
Proof.
  intros Hs Hc. unfold fixClosedAt. rewrite Hs, Hc. reflexivity.
Qed.

Lemma fixDeletedAt_DeletedAt i :
  Status_ i = StatusTombstone -> DeletedAt i = None ->
  DeletedAt (fixDeletedAt i) = Some (Time.Add (maxTime i) Time.Second).
Proof.
  intros Hs Hd. unfold fixDeletedAt. rewrite Hs, Hd. reflexivity.
Qed.

Section Equations.
Context {Conn : Type} {B : Backend Conn}.

Lemma computeHash_frame (i : Issue) :
  sameBut (fun i j => CreatedAt j = CreatedAt i /\ UpdatedAt j = UpdatedAt i /\
                      ClosedAt j = ClosedAt i /\ DeletedAt j = DeletedAt i) i (computeHash i).
Proof.
  unfold sameBut, computeHash.
  destruct (String.eqb _ _); simpl; tauto.
Qed.

Lemma computeHash_ContentHash (i : Issue) :
  ContentHash (computeHash i) =
  if String.eqb (ContentHash i) "" then ComputeContentHash i else ContentHash i.
Proof.
  unfold computeHash. destruct (String.eqb _ _); reflexivity.
Qed.

(** The timestamps, the identifier and the sub-namespace token after the
    repairs and the fingerprint. *)
Lemma prepared_CreatedAt now (i : Issue) :
  CreatedAt (prepared now i) = if Time.IsZero (CreatedAt i) then now else CreatedAt i.
Proof.
  unfold prepared, repaired.
  destruct (computeHash_frame (fixDeletedAt (fixClosedAt (setTimestamps now i))))
    as [(-> & _) _].
  destruct (fixDeletedAt_frame (fixClosedAt (setTimestamps now i))) as [(_ & -> & _) _].
  destruct (fixClosedAt_frame (setTimestamps now i)) as [(_ & -> & _) _].
  apply setTimestamps_CreatedAt.
Qed.

Lemma prepared_UpdatedAt now (i : Issue) :
  UpdatedAt (prepared now i) = if Time.IsZero (UpdatedAt i) then now else UpdatedAt i.
Proof.
  unfold prepared, repaired.
  destruct (computeHash_frame (fixDeletedAt (fixClosedAt (setTimestamps now i))))
    as [(_ & -> & _) _].
  destruct (fixDeletedAt_frame (fixClosedAt (setTimestamps now i))) as [(_ & _ & -> & _) _].
  destruct (fixClosedAt_frame (setTimestamps now i)) as [(_ & _ & -> & _) _].
  apply setTimestamps_UpdatedAt.
Qed.

Lemma repaired_frame now (i : Issue) :
  ID (repaired now i) = ID i /\ Status_ (repaired now i) = Status_ i /\
  IDPrefix (repaired now i) = IDPrefix i /\ ContentHash (repaired now i) = ContentHash i /\
  CreatedAt (repaired now i) = CreatedAt (prepared now i) /\
  UpdatedAt (repaired now i) = UpdatedAt (prepared now i) /\
  ClosedAt (repaired now i) = ClosedAt (prepared now i) /\
  DeletedAt (repaired now i) = DeletedAt (prepared now i).
Proof.
  unfold prepared.
  destruct (computeHash_frame (repaired now i)) as [(-> & -> & -> & ->) _].
  unfold repaired.
  destruct (fixDeletedAt_frame (fixClosedAt (setTimestamps now i)))
    as [(-> & _) (-> & _ & -> & _ & ->)].
  destruct (fixClosedAt_frame (setTimestamps now i)) as [(-> & _) (-> & _ & -> & _ & ->)].
  destruct (setTimestamps_frame now i) as [(-> & _) (-> & _ & -> & _ & ->)].
  tauto.
Qed.

Lemma prepared_frame now (i : Issue) :
  ID (prepared now i) = ID i /\ Status_ (prepared now i) = Status_ i /\
  IDPrefix (prepared now i) = IDPrefix i.
Proof.
  unfold prepared.
  destruct (computeHash_frame (repaired now i)) as [_ (-> & _ & -> & _ & ->)].
  destruct (repaired_frame now i) as (-> & -> & -> & _). tauto.
Qed.

Lemma prepared_ClosedAt now (i : Issue) :
  Status_ i = StatusClosed -> ClosedAt i = None ->
  ClosedAt (prepared now i) =
  Some (Time.Add (Z.max (CreatedAt (prepared now i)) (UpdatedAt (prepared now i))) Time.Second).
Proof.
  intros Hs Hc.
  destruct (repaired_frame now i) as (_ & _ & _ & _ & <- & <- & <- & _).
  unfold repaired.
  destruct (fixDeletedAt_frame (fixClosedAt (setTimestamps now i)))
    as [(_ & -> & -> & ->) _].
  destruct (setTimestamps_frame now i) as [(_ & Hc' & _) (_ & _ & Hs' & _)].
  rewrite fixClosedAt_ClosedAt by congruence.
  destruct (fixClosedAt_frame (setTimestamps now i)) as [(_ & -> & -> & _) _].
  rewrite maxTime_max. reflexivity.
Qed.

Lemma prepared_DeletedAt now (i : Issue) :
  Status_ i = StatusTombstone -> DeletedAt i = None ->
  DeletedAt (prepared now i) =
  Some (Time.Add (Z.max (CreatedAt (prepared now i)) (UpdatedAt (prepared now i))) Time.Second).
Proof.
  intros Hs Hd.
  destruct (repaired_frame now i) as (_ & _ & _ & _ & <- & <- & _ & <-).
  unfold repaired.
  destruct (fixClosedAt_frame (setTimestamps now i))
    as [(_ & Hc1 & Hu1 & Hd1) (_ & _ & Hs1 & _)].
  destruct (setTimestamps_frame now i) as [(_ & _ & Hd0) (_ & _ & Hs0 & _)].
  rewrite fixDeletedAt_DeletedAt by congruence.
  destruct (fixDeletedAt_frame (fixClosedAt (setTimestamps now i))) as [(_ & -> & -> & _) _].
  rewrite maxTime_max, Hc1, Hu1. reflexivity.
Qed.

End Equations.

(** ** The routine, stage by stage *)

Section Stages.
Context {Conn : Type} {B : Backend Conn}.

Lemma readConfigPrefix_eq (c : Conn) (j : Issue) :
  readConfigPrefix (mkTx c j) =
  (mkTx c j,
   let '(configPrefix, err) := QueryConfig c "issue_prefix" in
   if isErrNoRows err || String.eqb configPrefix "" then inl errNotInitialized
   else match err with
        | Some e => inl (ErrWrap "failed to get config" e)
        | None => inr configPrefix
        end).
Proof.
  unfold readConfigPrefix; simpl.
  destruct (QueryConfig c "issue_prefix") as [v err].
  destruct (isErrNoRows err || String.eqb v ""); [reflexivity|].
  destruct err; reflexivity.
Qed.

Lemma resolveID_eq (prefix actor : string) (skip : bool) (c : Conn) (j : Issue) :
  resolveID prefix actor skip (mkTx c j) =
  if String.eqb (ID j) "" then
    match GenerateIssueID c prefix j actor with
    | (c', inl e) => (mkTx c' j, inl (ErrWrap "failed to generate issue ID" e))
    | (c', inr generatedID) => (mkTx c' (set_ID generatedID j), inr tt)
    end
  else if negb skip then
    match ValidateIssueIDPrefix (ID j) prefix with
    | Some e => (mkTx c j, inl (ErrWrap "failed to validate issue ID prefix" e))
    | None => (mkTx c j, inr tt)
    end
  else (mkTx c j, inr tt).
Proof.
  unfold resolveID, bind, getIssue; simpl.
  destruct (String.eqb (ID j) "").
  - unfold call, update; simpl.
    destruct (GenerateIssueID c prefix j actor) as [c' [e|g]]; reflexivity.
  - destruct skip; simpl; [reflexivity|].
    destruct (ValidateIssueIDPrefix (ID j) prefix); reflexivity.
Qed.

Lemma persist_eq (actor : string) (c : Conn) (j : Issue) :
  persist actor (mkTx c j) =
  match insertIssueStrict c j with
  | (c1, Some e) => (mkTx c1 j, inl (ErrWrap "failed to insert issue" e))
  | (c1, None) =>
      match recordCreatedEvent c1 j actor with
      | (c2, Some e) => (mkTx c2 j, inl (ErrWrap "failed to record creation event" e))
      | (c2, None) =>
          match markDirty c2 (ID j) with
          | (c3, Some e) => (mkTx c3 j, inl (ErrWrap "failed to mark issue dirty" e))
          | (c3, None) => (mkTx c3 j, inr tt)
          end
      end
  end.
Proof.
  unfold persist, bind, getIssue, exec; simpl.
  destruct (insertIssueStrict c j) as [c1 [e|]]; simpl; [reflexivity|].
  destruct (recordCreatedEvent c1 j actor) as [c2 [e|]]; simpl; [reflexivity|].
  destruct (markDirty c2 (ID j)) as [c3 [e|]]; reflexivity.
Qed.

Lemma CreateIssueImport_eq (now : Time.t) (actor : string) (skip : bool)
    (c : Conn) (i : Issue) :
  CreateIssueImport now actor skip (mkTx c i) =
  match GetCustomStatuses c with
  | inl e => (mkTx c i, inl (ErrWrap "failed to get custom statuses" e))
  | inr customStatuses =>
      match GetCustomTypes c with
      | inl e => (mkTx c i, inl (ErrWrap "failed to get custom types" e))
      | inr customTypes =>
          match ValidateWithCustom (repaired now i) customStatuses customTypes with
          | Some e => (mkTx c (repaired now i), inl (ErrWrap "validation failed" e))
          | None =>
              match readConfigPrefix (mkTx c (prepared now i)) with
              | (s, inl e) => (s, inl e)
              | (s, inr configPrefix) =>
                  match resolveID (effectivePrefix configPrefix (issue s)) actor skip s with
                  | (s', inl e) => (s', inl e)
                  | (s', inr _) => persist actor s'
                  end
              end
          end
      end
  end.
Proof.
  unfold CreateIssueImport, bind, query, update, getIssue, check, prepared, repaired.
  cbn [conn issue].
  destruct (GetCustomStatuses c) as [e|sts]; cbn [conn issue]; [reflexivity|].
  destruct (GetCustomTypes c) as [e|tys]; cbn [conn issue]; [reflexivity|].
  destruct (ValidateWithCustom _ sts tys); reflexivity.
Qed.

Lemma CreateIssueImport_config now actor skip (c : Conn) (i : Issue) :
  reachesConfig now c i ->
  CreateIssueImport now actor skip (mkTx c i) =
  match readConfigPrefix (mkTx c (prepared now i)) with
  | (s, inl e) => (s, inl e)
  | (s, inr configPrefix) =>
      match resolveID (effectivePrefix configPrefix (issue s)) actor skip s with
      | (s', inl e) => (s', inl e)
      | (s', inr _) => persist actor s'
      end
  end.
Proof.
  intros (sts & tys & Hs & Ht & Hv).
  rewrite CreateIssueImport_eq, Hs, Ht, Hv. reflexivity.
Qed.

Lemma CreateIssueImport_resolve now actor skip (c : Conn) (i : Issue) base :
  reachesResolve now c i base ->
  CreateIssueImport now actor skip (mkTx c i) =
  match resolveID (effectivePrefix base (prepared now i)) actor skip
          (mkTx c (prepared now i)) with
  | (s', inl e) => (s', inl e)
  | (s', inr _) => persist actor s'
  end.
Proof.
  intros (Hr & Hq & Hne).
  rewrite (CreateIssueImport_config _ _ _ _ _ Hr), readConfigPrefix_eq, Hq.
  simpl. apply String.eqb_neq in Hne. rewrite Hne. reflexivity.
Qed.

(** Before the prefix read succeeds nothing is written and the call fails. *)
Lemma CreateIssueImport_early now actor skip (c : Conn) (i : Issue) v err :
  QueryConfig c "issue_prefix" = (v, err) ->
  isErrNoRows err || String.eqb v "" = true \/ err <> None ->
  exists j e, CreateIssueImport now actor skip (mkTx c i) = (mkTx c j, inl e).
Proof.
  intros Hq Hbad. rewrite CreateIssueImport_eq.
  destruct (GetCustomStatuses c) as [e|sts]; [eauto|].
  destruct (GetCustomTypes c) as [e|tys]; [eauto|].
  destruct (ValidateWithCustom (repaired now i) sts tys); [eauto|].
  rewrite readConfigPrefix_eq, Hq.
  destruct (isErrNoRows err || String.eqb v "") eqn:Hz; [eauto|].
  destruct Hbad as [Hbad|Hbad]; [discriminate|].
  destruct err; [eauto|congruence].
Qed.

End Stages.

(** ** What the caller's issue holds after the call *)

Section Outcome.
Context {Conn : Type} {B : Backend Conn}.

(** From the prefix read on, the issue is the prepared one, up to the
    identifier generated for it. *)
Lemma issue_after_config now actor skip (c : Conn) (i : Issue) s' r :
  reachesConfig now c i ->
  CreateIssueImport now actor skip (mkTx c i) = (s', r) ->
  issue s' = prepared now i \/
  (ID i = "" /\ exists g, issue s' = set_ID g (prepared now i) /\ ID (issue s') = g).
Proof.
  intros Hr. rewrite (CreateIssueImport_config _ _ _ _ _ Hr), readConfigPrefix_eq.
  destruct (QueryConfig c "issue_prefix") as [v err].
  destruct (isErrNoRows err || String.eqb v "").
  { intros [= <- _]. now left. }
  destruct err as [e|].
  { intros [= <- _]. now left. }
  cbn [issue]. rewrite resolveID_eq.
  destruct (prepared_frame now i) as (Hid & _).
  destruct (String.eqb (ID (prepared now i)) "") eqn:Hz.
  - apply String.eqb_eq in Hz. rewrite Hid in Hz.
    destruct (GenerateIssueID _ _ _ _) as [c' [e|g]].
    + intros [= <- _]. now left.
    + rewrite persist_eq.
      assert (Hg : set_ID g (prepared now i) = prepared now i \/
                (ID i = "" /\ exists g0, set_ID g (prepared now i) = set_ID g0 (prepared now i) /\
                                         ID (set_ID g (prepared now i)) = g0))
        by (right; split; [exact Hz|exists g; split; reflexivity]).
      destruct (insertIssueStrict _ _) as [c1 [e|]]; [intros [= <- _]; exact Hg|].
      destruct (recordCreatedEvent _ _ _) as [c2 [e|]]; [intros [= <- _]; exact Hg|].
      destruct (markDirty _ _) as [c3 [e|]]; intros [= <- _]; exact Hg.
  - assert (Hp : forall s0 r0, persist actor (mkTx c (prepared now i)) = (s0, r0) ->
                   issue s0 = prepared now i).
    { intros s0 r0. rewrite persist_eq.
      destruct (insertIssueStrict _ _) as [c1 [e|]]; [intros [= <- _]; reflexivity|].
      destruct (recordCreatedEvent _ _ _) as [c2 [e|]]; [intros [= <- _]; reflexivity|].
      destruct (markDirty _ _) as [c3 [e|]]; intros [= <- _]; reflexivity. }
    destruct (negb skip).
    + destruct (ValidateIssueIDPrefix _ _).
      * intros [= <- _]. now left.
      * intros H. left. eapply Hp, H.
    + intros H. left. eapply Hp, H.
Qed.

(** A call that returns nil went through every step. *)
Lemma success_reaches now actor skip (c : Conn) (i : Issue) s' :
  CreateIssueImport now actor skip (mkTx c i) = (s', inr tt) ->
  exists base, reachesResolve now c i base.
Proof.
  rewrite CreateIssueImport_eq. unfold reachesResolve, reachesConfig.
  destruct (GetCustomStatuses c) as [e|sts]; [discriminate|].
  destruct (GetCustomTypes c) as [e|tys]; [discriminate|].
  destruct (ValidateWithCustom (repaired now i) sts tys) eqn:Hv; [discriminate|].
  rewrite readConfigPrefix_eq.
  destruct (QueryConfig c "issue_prefix") as [v err].
  destruct (isErrNoRows err || String.eqb v "") eqn:Hz; [discriminate|].
  destruct err as [e|]; [discriminate|].
  intros _. exists v. apply orb_false_elim in Hz as [_ Hz]. apply String.eqb_neq in Hz.
  eauto 10.
Qed.

Lemma set_ID_fields g (j : Issue) :
  CreatedAt (set_ID g j) = CreatedAt j /\ UpdatedAt (set_ID g j) = UpdatedAt j /\
  ClosedAt (set_ID g j) = ClosedAt j /\ DeletedAt (set_ID g j) = DeletedAt j /\
  ContentHash (set_ID g j) = ContentHash j.
Proof. unfold set_ID; simpl; tauto. Qed.

(** The fields the repairs decide are those of the prepared issue. *)
Lemma repaired_fields_after_config now actor skip (c : Conn) (i : Issue) s' r :
  reachesConfig now c i ->
  CreateIssueImport now actor skip (mkTx c i) = (s', r) ->
  CreatedAt (issue s') = CreatedAt (prepared now i) /\
  UpdatedAt (issue s') = UpdatedAt (prepared now i) /\
  ClosedAt (issue s') = ClosedAt (prepared now i) /\
  DeletedAt (issue s') = DeletedAt (prepared now i) /\
  ContentHash (issue s') = ContentHash (prepared now i).
Proof.
  intros Hr H.
  destruct (issue_after_config _ _ _ _ _ _ _ Hr H) as [->|(_ & g & -> & _)].
  - tauto.
  - apply set_ID_fields.
Qed.

End Outcome.

(** C1. When an issue whose status is closed and whose [ClosedAt] is nil is
    handed to [CreateIssueImport] and the call succeeds, [ClosedAt] is
    afterwards one second past the later of [CreatedAt] and [UpdatedAt],
    these two being the values left by the defaulting of zero timestamps. *)
Theorem closed_at_one_second_after_max {Conn : Type} {B : Backend Conn}
    (now : Time.t) (actor : string) (skip : bool) (c : Conn) (i : Issue) (s' : Tx Conn) :
  Status_ i = StatusClosed ->
  ClosedAt i = None ->
  CreateIssueImport now actor skip (mkTx c i) = (s', inr tt) ->
  CreatedAt (issue s') = (if Time.IsZero (CreatedAt i) then now else CreatedAt i) /\
  UpdatedAt (issue s') = (if Time.IsZero (UpdatedAt i) then now else UpdatedAt i) /\
  ClosedAt (issue s') =
    Some (Time.Add (Z.max (CreatedAt (issue s')) (UpdatedAt (issue s'))) Time.Second).
Proof.
  intros Hs Hc Hrun.
  destruct (success_reaches _ _ _ _ _ _ Hrun) as (base & Hr & _).
  destruct (repaired_fields_after_config _ _ _ _ _ _ _ Hr Hrun) as (-> & -> & -> & _).
  rewrite <- prepared_CreatedAt, <- prepared_UpdatedAt.
  auto using prepared_ClosedAt.
Qed.

(** C9. When an issue whose status is tombstone and whose [DeletedAt] is nil
    is handed to [CreateIssueImport] and the call succeeds, [DeletedAt] is
    afterwards one second past the later of [CreatedAt] and [UpdatedAt],
    these two being the values left by the defaulting of zero timestamps. *)
Theorem deleted_at_one_second_after_max {Conn : Type} {B : Backend Conn}
    (now : Time.t) (actor : string) (skip : bool) (c : Conn) (i : Issue) (s' : Tx Conn) :
  Status_ i = StatusTombstone ->
  DeletedAt i = None ->
  CreateIssueImport now actor skip (mkTx c i) = (s', inr tt) ->
  CreatedAt (issue s') = (if Time.IsZero (CreatedAt i) then now else CreatedAt i) /\
  UpdatedAt (issue s') = (if Time.IsZero (UpdatedAt i) then now else UpdatedAt i) /\
  DeletedAt (issue s') =
    Some (Time.Add (Z.max (CreatedAt (issue s')) (UpdatedAt (issue s'))) Time.Second).
Proof.
  intros Hs Hd Hrun.
  destruct (success_reaches _ _ _ _ _ _ Hrun) as (base & Hr & _).
  destruct (repaired_fields_after_config _ _ _ _ _ _ _ Hr Hrun) as (-> & -> & _ & -> & _).
  rewrite <- prepared_CreatedAt, <- prepared_UpdatedAt.
  auto using prepared_DeletedAt.
Qed.

Lemma closed_at_one_second_after_max_witness :
  let s' := fst (Store.create Store.t0 "alice" false (mkTx Store.proj Store.closedIssue)) in
  CreatedAt (issue s') = Store.t1 /\
  UpdatedAt (issue s') = Store.t1 /\
  ClosedAt (issue s') =
    Some (Time.Add (Z.max (CreatedAt (issue s')) (UpdatedAt (issue s'))) Time.Second).
Proof.
  apply (closed_at_one_second_after_max (B := Store.backend)
           Store.t0 "alice" false Store.proj Store.closedIssue);
    vm_compute; reflexivity.
Defined.

Lemma deleted_at_one_second_after_max_witness :
  let s' := fst (Store.create Store.t0 "alice" false (mkTx Store.proj Store.tombstone)) in
  CreatedAt (issue s') = Store.t1 /\
  UpdatedAt (issue s') = Store.t2 /\
  DeletedAt (issue s') =
    Some (Time.Add (Z.max (CreatedAt (issue s')) (UpdatedAt (issue s'))) Time.Second).
Proof.
  apply (deleted_at_one_second_after_max (B := Store.backend)
           Store.t0 "alice" false Store.proj Store.tombstone);
    vm_compute; reflexivity.
Defined.

(** ** The defaulting of the timestamps *)

Section Timestamps.
Context {Conn : Type} {B : Backend Conn}.

(** Either the vocabulary could not be read and the issue is untouched, or
    both timestamps are those of the prepared issue. *)
Lemma timestamps_after_call now actor skip (c : Conn) (i : Issue) s' r :
  CreateIssueImport now actor skip (mkTx c i) = (s', r) ->
  ((exists e, GetCustomStatuses c = inl e \/ GetCustomTypes c = inl e) /\ issue s' = i) \/
  ((exists sts tys, GetCustomStatuses c = inr sts /\ GetCustomTypes c = inr tys) /\
   CreatedAt (issue s') = CreatedAt (prepared now i) /\
   UpdatedAt (issue s') = UpdatedAt (prepared now i)).
Proof.
  intros Hrun. pose proof Hrun as Hrun0. rewrite CreateIssueImport_eq in Hrun.
  destruct (GetCustomStatuses c) as [e|sts] eqn:Hs.
  { injection Hrun as <- _. left. eauto. }
  destruct (GetCustomTypes c) as [e|tys] eqn:Ht.
  { injection Hrun as <- _. left. eauto. }
  right. split; [eauto|].
  destruct (ValidateWithCustom (repaired now i) sts tys) eqn:Hv.
  - injection Hrun as <- _. cbn [issue].
    destruct (repaired_frame now i) as (_ & _ & _ & _ & -> & -> & _). tauto.
  - assert (Hr : reachesConfig now c i) by (exists sts, tys; auto).
    destruct (repaired_fields_after_config _ _ _ _ _ _ _ Hr Hrun0) as (-> & -> & _). tauto.
Qed.

End Timestamps.

(** C2, as amended.  Each of [CreatedAt] and [UpdatedAt] is replaced by the
    current instant exactly when that field itself is zero (and the
    vocabulary has been read); a field that carries a timestamp is kept
    verbatim, whatever the other field holds. *)
Theorem timestamps_defaulted_per_field {Conn : Type} {B : Backend Conn}
    (now : Time.t) (actor : string) (skip : bool) (c : Conn) (i : Issue)
    (s' : Tx Conn) (r : error + unit) :
  CreateIssueImport now actor skip (mkTx c i) = (s', r) ->
  (Time.IsZero (CreatedAt i) = false -> CreatedAt (issue s') = CreatedAt i) /\
  (Time.IsZero (UpdatedAt i) = false -> UpdatedAt (issue s') = UpdatedAt i) /\
  (CreatedAt (issue s') <> CreatedAt i ->
     Time.IsZero (CreatedAt i) = true /\ CreatedAt (issue s') = now) /\
  (UpdatedAt (issue s') <> UpdatedAt i ->
     Time.IsZero (UpdatedAt i) = true /\ UpdatedAt (issue s') = now) /\
  ((exists sts tys, GetCustomStatuses c = inr sts /\ GetCustomTypes c = inr tys) ->
     CreatedAt (issue s') = (if Time.IsZero (CreatedAt i) then now else CreatedAt i) /\
     UpdatedAt (issue s') = (if Time.IsZero (UpdatedAt i) then now else UpdatedAt i)).
Proof.
  intros Hrun.
  destruct (timestamps_after_call _ _ _ _ _ _ _ Hrun) as [((e & He) & ->)|(_ & -> & ->)].
  - cbn [issue].
    split; [reflexivity|]. split; [reflexivity|].
    split; [congruence|]. split; [congruence|].
    intros (sts & tys & Hs & Ht); destruct He; congruence.
  - rewrite prepared_CreatedAt, prepared_UpdatedAt.
    split; [intros ->; reflexivity|]. split; [intros ->; reflexivity|].
    split; [|split].
    + destruct (Time.IsZero (CreatedAt i)); [tauto|congruence].
    + destruct (Time.IsZero (UpdatedAt i)); [tauto|congruence].
    + tauto.
Qed.

Lemma timestamps_defaulted_per_field_witness :
  let i := Store.halfStamped in
  let s' := fst (Store.create Store.t0 "alice" false (mkTx Store.proj i)) in
  CreatedAt (issue s') = Store.t0 /\ UpdatedAt (issue s') = Store.t1.
Proof.
  cbv zeta.
  destruct (timestamps_defaulted_per_field (B := Store.backend)
              Store.t0 "alice" false Store.proj Store.halfStamped _ _ eq_refl)
    as (_ & Hu & Hc & _).
  split.
  - apply Hc. vm_compute. discriminate.
  - apply Hu. reflexivity.
Defined.

(** C2, as stated, fails: an issue with a zero [CreatedAt] and a historical
    [UpdatedAt] has its [CreatedAt] replaced by the current instant. *)
Lemma defaulted_only_if_both_zero_counterexample :
  ~ defaultedOnlyIfBothZero (B := Store.backend)
      Store.t0 "alice" false Store.proj Store.halfStamped.
Proof.
  unfold defaultedOnlyIfBothZero. intros H.
  destruct H as [H _]; [reflexivity|].
  vm_compute in H. discriminate H.
Qed.

(** ** The namespace configuration *)

(** C3, as amended.  When the [issue_prefix] key is absent or its value is
    empty, the call fails and leaves the connection as it was: no insert, no
    audit event and no dirty marker is written.  The failure is the
    store-not-initialized error whenever the steps that run before the
    prefix read (the two vocabulary fetches and the validation) succeed. *)
Theorem missing_prefix_fails_without_writes {Conn : Type} {B : Backend Conn}
    (now : Time.t) (actor : string) (skip : bool) (c : Conn) (i : Issue) :
  prefixMissing c ->
  exists j e,
    CreateIssueImport now actor skip (mkTx c i) = (mkTx c j, inl e) /\
    (reachesConfig now c i -> e = errNotInitialized /\ j = prepared now i).
Proof.
  unfold prefixMissing. intros Hm.
  destruct (QueryConfig c "issue_prefix") as [v err] eqn:Hq. cbn [fst snd] in Hm.
  assert (Hz : isErrNoRows err || String.eqb v "" = true).
  { destruct Hm as [->| ->]; [reflexivity|]. rewrite String.eqb_refl. apply orb_true_r. }
  destruct (CreateIssueImport_early now actor skip c i v err Hq (or_introl Hz))
    as (j & e & Hrun).
  exists j, e. split; [exact Hrun|].
  intros Hr. rewrite (CreateIssueImport_config _ _ _ _ _ Hr), readConfigPrefix_eq, Hq, Hz in Hrun.
  injection Hrun as <- <-. split; reflexivity.
Qed.

Lemma missing_prefix_fails_without_writes_witness :
  exists j e,
    Store.create Store.t0 "alice" false (mkTx Store.empty Store.draft)
      = (mkTx Store.empty j, inl e) /\
    (reachesConfig (B := Store.backend) Store.t0 Store.empty Store.draft ->
     e = errNotInitialized /\ j = prepared (B := Store.backend) Store.t0 Store.draft).
Proof.
  apply (missing_prefix_fails_without_writes (B := Store.backend)
           Store.t0 "alice" false Store.empty Store.draft).
  left. vm_compute. reflexivity.
Defined.

(** C3, as stated, fails: on a store without the key, an issue with an
    unknown status is turned down by the validation, which runs first. *)
Lemma fails_not_initialized_counterexample :
  ~ failsNotInitialized (B := Store.backend)
      Store.t0 "alice" false Store.empty Store.bogus.
Proof.
  unfold failsNotInitialized. intros H.
  destruct H as [j H]; [left; reflexivity|].
  apply (f_equal snd) in H. vm_compute in H. discriminate H.
Qed.

(** ** The prefix of a supplied identifier *)

Lemma effectivePrefix_prepared {Conn : Type} {B : Backend Conn} now base (i : Issue) :
  effectivePrefix base (prepared now i) = effectivePrefix base i.
Proof.
  unfold effectivePrefix. destruct (prepared_frame now i) as (_ & _ & ->). reflexivity.
Qed.

(** C4, as amended.  When the issue arrives with an identifier that does not
    match the effective prefix and [skipPrefixValidation] is false, the call
    fails and leaves the connection as it was: no row is inserted, no event
    and no dirty marker is written.  The failure is the prefix-validation
    error, which differs from every identifier-generation error, whenever
    the steps that run before the check (the vocabulary fetches, the
    validation and the prefix read) succeed. *)
Theorem prefix_mismatch_fails_without_writes {Conn : Type} {B : Backend Conn}
    (now : Time.t) (actor : string) (c : Conn) (i : Issue) (e : error) :
  prefixMismatch c i e ->
  (exists j e',
     CreateIssueImport now actor false (mkTx c i) = (mkTx c j, inl e') /\
     (forall base, reachesResolve now c i base ->
        e' = errPrefixValidation e /\ j = prepared now i)) /\
  (forall e'', errPrefixValidation e <> errGenerateID e'').
Proof.
  intros (Hid & Hm). split; [|discriminate].
  destruct (QueryConfig c "issue_prefix") as [v err] eqn:Hq. cbn [fst] in Hm.
  destruct (isErrNoRows err || String.eqb v "") eqn:Hz.
  { destruct (CreateIssueImport_early now actor false c i v err Hq (or_introl Hz))
      as (j & e' & Hrun).
    exists j, e'. split; [exact Hrun|].
    intros base (_ & Hq' & Hne). rewrite Hq in Hq'. injection Hq' as -> ->.
    apply String.eqb_neq in Hne. cbn in Hz. congruence. }
  destruct err as [e0|].
  { assert (Hsome : Some e0 <> None) by discriminate.
    destruct (CreateIssueImport_early now actor false c i v (Some e0) Hq
                (or_intror Hsome)) as (j & e' & Hrun).
    exists j, e'. split; [exact Hrun|].
    intros base (_ & Hq' & _). congruence. }
  assert (Hres : resolveID (effectivePrefix v (prepared now i)) actor false
                   (mkTx c (prepared now i))
                 = (mkTx c (prepared now i), inl (errPrefixValidation e))).
  { rewrite resolveID_eq, effectivePrefix_prepared.
    destruct (prepared_frame now i) as (-> & _).
    apply String.eqb_neq in Hid. rewrite Hid. cbn [negb]. rewrite Hm. reflexivity. }
  rewrite CreateIssueImport_eq.
  destruct (GetCustomStatuses c) as [e1|sts] eqn:Hs.
  { do 2 eexists. split; [reflexivity|].
    intros base ((sts & tys & Hs' & _) & _). congruence. }
  destruct (GetCustomTypes c) as [e1|tys] eqn:Ht.
  { do 2 eexists. split; [reflexivity|].
    intros base ((sts' & tys & _ & Ht' & _) & _). congruence. }
  destruct (ValidateWithCustom (repaired now i) sts tys) eqn:Hv.
  { do 2 eexists. split; [reflexivity|].
    intros base ((sts' & tys' & Hs' & Ht' & Hv') & _). congruence. }
  rewrite readConfigPrefix_eq, Hq, Hz. cbn [issue]. rewrite Hres.
  do 2 eexists. split; [reflexivity|]. intros; split; reflexivity.
Qed.

Lemma prefix_mismatch_fails_without_writes_witness :
  exists e,
    Store.validateIssueIDPrefix "OTHER-1" "PROJ" = Some e /\
    Store.create Store.t0 "alice" false (mkTx Store.proj Store.foreign)
      = (mkTx Store.proj (prepared (B := Store.backend) Store.t0 Store.foreign),
         inl (errPrefixValidation e)).
Proof.
  eexists. split; [reflexivity|].
  match goal with
  | |- _ = (_, inl (errPrefixValidation ?e)) =>
      assert (Hm : prefixMismatch (B := Store.backend) Store.proj Store.foreign e)
        by (split; [discriminate|reflexivity])
  end.
  destruct (prefix_mismatch_fails_without_writes (B := Store.backend)
              Store.t0 "alice" Store.proj Store.foreign _ Hm)
    as [(j & e' & Hrun & Hwhy) _].
  destruct (Hwhy "PROJ") as [-> ->].
  - split; [|split; [reflexivity|discriminate]].
    exists [], []. repeat split; reflexivity.
  - exact Hrun.
Defined.

(** C4, as stated, fails: on an initialised store, an issue of another
    namespace whose status is unknown is turned down by the validation,
    which runs before the prefix check. *)
Lemma fails_prefix_validation_counterexample :
  ~ failsPrefixValidation (B := Store.backend) Store.t0 "alice" Store.proj Store.bogus.
Proof.
  unfold failsPrefixValidation. intros H.
  edestruct H as [j Hrun]; [split; [discriminate|reflexivity]|].
  apply (f_equal snd) in Hrun. vm_compute in Hrun. discriminate Hrun.
Qed.

(** ** Skipping the prefix check *)

(** C5, as amended.  When the issue arrives with an identifier and
    [skipPrefixValidation] is true, no prefix check is made: the call never
    fails with a prefix-validation error, whatever the check would say of
    the identifier, and once the steps that run before (the vocabulary
    fetches, the validation and the prefix read) have succeeded it goes
    straight to the insert step with the identifier as supplied. *)
Theorem skip_bypasses_prefix_check {Conn : Type} {B : Backend Conn}
    (now : Time.t) (actor : string) (c : Conn) (i : Issue) :
  ID i <> "" ->
  (forall e, snd (CreateIssueImport now actor true (mkTx c i)) <> inl (errPrefixValidation e)) /\
  (forall base, reachesResolve now c i base ->
     CreateIssueImport now actor true (mkTx c i) = persist actor (mkTx c (prepared now i)) /\
     ID (prepared now i) = ID i).
Proof.
  intros Hid.
  assert (Hres : forall p, resolveID p actor true (mkTx c (prepared now i))
                           = (mkTx c (prepared now i), inr tt)).
  { intros p. rewrite resolveID_eq. destruct (prepared_frame now i) as (-> & _).
    apply String.eqb_neq in Hid. rewrite Hid. reflexivity. }
  split.
  - intros e. rewrite CreateIssueImport_eq.
    destruct (GetCustomStatuses c) as [e1|sts]; [discriminate|].
    destruct (GetCustomTypes c) as [e1|tys]; [discriminate|].
    destruct (ValidateWithCustom (repaired now i) sts tys); [discriminate|].
    rewrite readConfigPrefix_eq.
    destruct (QueryConfig c "issue_prefix") as [v err].
    destruct (isErrNoRows err || String.eqb v ""); [discriminate|].
    destruct err as [e0|]; [discriminate|].
    cbn [issue]. rewrite Hres, persist_eq.
    destruct (insertIssueStrict _ _) as [c1 [e1|]]; [discriminate|].
    destruct (recordCreatedEvent _ _ _) as [c2 [e1|]]; [discriminate|].
    destruct (markDirty _ _) as [c3 [e1|]]; discriminate.
  - intros base Hr. rewrite (CreateIssueImport_resolve _ _ _ _ _ _ Hr), Hres.
    split; [reflexivity|]. apply prepared_frame.
Qed.

Lemma skip_bypasses_prefix_check_witness :
  Store.validateIssueIDPrefix (ID Store.foreign) "PROJ" <> None /\
  (let s' := fst (Store.create Store.t0 "alice" true (mkTx Store.proj Store.foreign)) in
   Store.create Store.t0 "alice" true (mkTx Store.proj Store.foreign) = (s', inr tt) /\
   is_Some (Store.issues (conn s') !! "OTHER-1")).
Proof.
  split; [discriminate|].
  assert (Hid : ID Store.foreign <> "") by discriminate.
  destruct (skip_bypasses_prefix_check (B := Store.backend)
              Store.t0 "alice" Store.proj Store.foreign Hid) as [_ Hgo].
  destruct (Hgo "PROJ") as [Hrun _].
  - split; [|split; [reflexivity|discriminate]].
    exists [], []. repeat split; reflexivity.
  - cbv zeta. unfold Store.create. rewrite Hrun.
    split; [vm_compute; reflexivity|]. vm_compute. eexists. reflexivity.
Defined.

(** C5, as stated, fails: with the skip requested, an issue that carries an
    identifier but an unknown status is turned down by the validation and
    never reaches the insert step, which on this store would have
    succeeded. *)
Lemma skips_to_insert_counterexample :
  ~ skipsToInsert (B := Store.backend) Store.t0 "alice" Store.proj Store.bogus.
Proof.
  unfold skipsToInsert. intros H.
  destruct H as [_ [j Hrun]]; [discriminate|].
  apply (f_equal snd) in Hrun. rewrite persist_eq in Hrun.
  cbn [insertIssueStrict recordCreatedEvent markDirty Store.backend] in Hrun.
  unfold Store.insertStrict in Hrun.
  change (Store.issues Store.proj) with (∅ : gmap string Issue) in Hrun.
  rewrite lookup_empty in Hrun.
  vm_compute in Hrun. discriminate Hrun.
Qed.

(** ** The effective prefix *)

Lemma effectivePrefix_spec base (i : Issue) :
  effectivePrefix base i = effectivePrefixSpec base (IDPrefix i).
Proof.
  unfold effectivePrefix, effectivePrefixSpec.
  destruct (String.eqb_spec (IDPrefix i) ""), (decide (IDPrefix i = ""));
    simpl; congruence.
Qed.

(** C6. The prefix handed to the identifier generator and to the prefix
    check is the configured base namespace when the issue's [IDPrefix] is
    empty, and the base, a dash and [IDPrefix] otherwise: the outcome of the
    call is decided by what these two collaborators answer at that prefix. *)
Theorem effective_prefix_used {Conn : Type} {B : Backend Conn}
    (now : Time.t) (actor : string) (skip : bool) (c : Conn) (i : Issue) (base : string) :
  reachesResolve now c i base ->
  let p := effectivePrefixSpec base (IDPrefix i) in
  let j := prepared now i in
  (IDPrefix i = "" -> p = base) /\
  (IDPrefix i <> "" -> p = base +:+ "-" +:+ IDPrefix i) /\
  (ID i = "" -> forall c',
     (forall e, GenerateIssueID c p j actor = (c', inl e) ->
        CreateIssueImport now actor skip (mkTx c i) = (mkTx c' j, inl (errGenerateID e))) /\
     (forall g, GenerateIssueID c p j actor = (c', inr g) ->
        CreateIssueImport now actor skip (mkTx c i) = persist actor (mkTx c' (set_ID g j)))) /\
  (ID i <> "" -> skip = false ->
     (forall e, ValidateIssueIDPrefix (ID i) p = Some e ->
        CreateIssueImport now actor skip (mkTx c i) = (mkTx c j, inl (errPrefixValidation e))) /\
     (ValidateIssueIDPrefix (ID i) p = None ->
        CreateIssueImport now actor skip (mkTx c i) = persist actor (mkTx c j))).
Proof.
  intros Hr p j. subst p j.
  rewrite (CreateIssueImport_resolve _ _ _ _ _ _ Hr), resolveID_eq, effectivePrefix_prepared,
    effectivePrefix_spec.
  destruct (prepared_frame now i) as (-> & _).
  split; [|split; [|split]].
  - unfold effectivePrefixSpec. intros ->. reflexivity.
  - unfold effectivePrefixSpec. intros Hne. destruct (decide _); [contradiction|reflexivity].
  - intros ->. cbn [String.eqb]. intros c'. split; intros x ->; reflexivity.
  - intros Hid ->. apply String.eqb_neq in Hid. rewrite Hid. cbn [negb].
    split; [intros e ->|intros ->]; reflexivity.
Qed.

Lemma effective_prefix_used_witness :
  ID (issue (fst (Store.create Store.t0 "alice" false (mkTx Store.proj Store.webDraft))))
    = "PROJ-web-1" /\
  ID (issue (fst (Store.create Store.t0 "alice" false (mkTx Store.proj Store.draft))))
    = "PROJ-1".
Proof.
  assert (Hr : forall i, Store.validateWithCustom (repaired Store.t0 i) [] [] = None ->
                 reachesResolve (B := Store.backend) Store.t0 Store.proj i "PROJ").
  { intros i Hv. split; [|split; [reflexivity|discriminate]].
    exists [], []. repeat split; [reflexivity..|exact Hv]. }
  split.
  - destruct (effective_prefix_used (B := Store.backend) Store.t0 "alice" false
                Store.proj Store.webDraft "PROJ" (Hr Store.webDraft eq_refl)) as (_ & _ & Hgen & _).
    destruct (Hgen eq_refl Store.proj) as [_ Hok].
    unfold Store.create. rewrite (Hok "PROJ-web-1"); [|vm_compute; reflexivity].
    vm_compute. reflexivity.
  - destruct (effective_prefix_used (B := Store.backend) Store.t0 "alice" false
                Store.proj Store.draft "PROJ" (Hr Store.draft eq_refl)) as (_ & _ & Hgen & _).
    destruct (Hgen eq_refl Store.proj) as [_ Hok].
    unfold Store.create. rewrite (Hok "PROJ-1"); [|vm_compute; reflexivity].
    vm_compute. reflexivity.
Defined.

(** ** The three writes *)

(** C7. Once the identifier is settled, the strict insert, the audit event
    and the dirty marker are written in this order, each on the connection
    the one before left.  The first of them that fails ends the call with
    its error wrapped under the name of that step, on the connection that
    step left: no later write is made.  In particular a failed insert is
    followed by no event and no marker. *)
Theorem writes_in_order {Conn : Type} {B : Backend Conn}
    (now : Time.t) (actor : string) (skip : bool) (c : Conn) (i : Issue) (base : string)
    (c0 : Conn) (j : Issue) :
  reachesResolve now c i base ->
  resolveID (effectivePrefix base (prepared now i)) actor skip (mkTx c (prepared now i))
    = (mkTx c0 j, inr tt) ->
  (forall c1 e, insertIssueStrict c0 j = (c1, Some e) ->
     CreateIssueImport now actor skip (mkTx c i)
       = (mkTx c1 j, inl (ErrWrap "failed to insert issue" e))) /\
  (forall c1 c2 e,
     insertIssueStrict c0 j = (c1, None) ->
     recordCreatedEvent c1 j actor = (c2, Some e) ->
     CreateIssueImport now actor skip (mkTx c i)
       = (mkTx c2 j, inl (ErrWrap "failed to record creation event" e))) /\
  (forall c1 c2 c3 e,
     insertIssueStrict c0 j = (c1, None) ->
     recordCreatedEvent c1 j actor = (c2, None) ->
     markDirty c2 (ID j) = (c3, Some e) ->
     CreateIssueImport now actor skip (mkTx c i)
       = (mkTx c3 j, inl (ErrWrap "failed to mark issue dirty" e))) /\
  (forall c1 c2 c3,
     insertIssueStrict c0 j = (c1, None) ->
     recordCreatedEvent c1 j actor = (c2, None) ->
     markDirty c2 (ID j) = (c3, None) ->
     CreateIssueImport now actor skip (mkTx c i) = (mkTx c3 j, inr tt)).
Proof.
  intros Hr Hres.
  rewrite (CreateIssueImport_resolve _ _ _ _ _ _ Hr), Hres, persist_eq.
  repeat split.
  - intros c1 e ->. reflexivity.
  - intros c1 c2 e -> ->. reflexivity.
  - intros c1 c2 c3 e -> -> ->. reflexivity.
  - intros c1 c2 c3 -> -> ->. reflexivity.
Qed.

Lemma writes_in_order_witness :
  let s2 := fst (Store.create Store.t0 "bob" false (mkTx importedOnce Store.closedIssue)) in
  snd (Store.create Store.t0 "alice" false (mkTx Store.proj Store.closedIssue)) = inr tt /\
  Store.create Store.t0 "bob" false (mkTx importedOnce Store.closedIssue)
    = (s2, inl (ErrWrap "failed to insert issue" (ErrMsg "UNIQUE constraint failed: issues.id"))) /\
  Store.events (conn s2) = [Store.mkEvent "PROJ-7" "created" "alice"] /\
  Store.dirty_issues (conn s2) = {["PROJ-7"]}.
Proof.
  assert (Hr : reachesResolve (B := Store.backend) Store.t0 importedOnce
                 Store.closedIssue "PROJ").
  { split; [|split; [reflexivity|discriminate]].
    exists [], []. repeat split; reflexivity. }
  destruct (writes_in_order (B := Store.backend) Store.t0 "bob" false importedOnce
              Store.closedIssue "PROJ" importedOnce
              (prepared (B := Store.backend) Store.t0 Store.closedIssue) Hr)
    as [Hins _].
  { vm_compute. reflexivity. }
  cbv zeta. unfold Store.create at 2 3 4 5.
  rewrite (Hins importedOnce (ErrMsg "UNIQUE constraint failed: issues.id"));
    [|vm_compute; reflexivity].
  cbn [fst conn].
  split; [vm_compute; reflexivity|].
  split; [reflexivity|].
  split; vm_compute; reflexivity.
Defined.

(** ** A failing prefix read *)

(** C8, on the code.  A prefix read that fails with a storage error before
    a row is scanned leaves [configPrefix] empty, and line 66 tests the
    empty string before line 68 looks at the error: the call reports the
    store-not-initialized error, which wraps nothing, and not the
    dependency-read failure that wraps the storage error. *)
Theorem read_failure_reported_as_not_initialized {Conn : Type} {B : Backend Conn}
    (now : Time.t) (actor : string) (skip : bool) (c : Conn) (i : Issue) (e : error) :
  reachesConfig now c i ->
  QueryConfig c "issue_prefix" = ("", Some e) ->
  CreateIssueImport now actor skip (mkTx c i) = (mkTx c (prepared now i), inl errNotInitialized) /\
  errNotInitialized <> errConfig e /\
  Unwrap errNotInitialized = None.
Proof.
  intros Hr Hq.
  rewrite (CreateIssueImport_config _ _ _ _ _ Hr), readConfigPrefix_eq, Hq.
  cbn [String.eqb]. rewrite orb_true_r.
  split; [reflexivity|]. split; [discriminate|reflexivity].
Qed.

Lemma read_failure_reported_as_not_initialized_witness :
  let e := ErrMsg "no such table: config" in
  CreateIssueImport (B := Store.failingConfig e) Store.t0 "alice" false
    (mkTx Store.proj Store.draft)
    = (mkTx Store.proj (prepared (B := Store.failingConfig e) Store.t0 Store.draft),
       inl errNotInitialized) /\
  errNotInitialized <> errConfig e /\
  Unwrap errNotInitialized = None.
Proof.
  apply (read_failure_reported_as_not_initialized
           (B := Store.failingConfig (ErrMsg "no such table: config"))).
  - exists [], []. repeat split; reflexivity.
  - reflexivity.
Defined.

(** X12. The wrapping branch of line 68 is taken only when the read both
    filled [configPrefix] and returned an error other than [sql.ErrNoRows]:
    once the validation has passed, the call fails with the config error
    wrapping [e] exactly in that case. *)
Lemma read_failure_wrapped_iff {Conn : Type} {B : Backend Conn}
    (now : Time.t) (actor : string) (skip : bool) (c : Conn) (i : Issue)
    (v : string) (err : option error) (e : error) :
  reachesConfig now c i ->
  QueryConfig c "issue_prefix" = (v, err) ->
  (exists s', CreateIssueImport now actor skip (mkTx c i) = (s', inl (errConfig e))) <->
  (err = Some e /\ e <> ErrNoRows /\ v <> "").
Proof.
  intros Hr Hq.
  rewrite (CreateIssueImport_config _ _ _ _ _ Hr), readConfigPrefix_eq, Hq.
  split.
  - intros (s' & H).
    destruct (String.eqb_spec v "") as [->|Hv].
    { rewrite orb_true_r in H. discriminate H. }
    rewrite orb_false_r in H.
    destruct err as [e0|].
    + destruct e0; cbn [isErrNoRows] in H; [discriminate H| |];
        injection H as _ <-; (split; [reflexivity|split; [discriminate|exact Hv]]).
    + exfalso. cbn [isErrNoRows issue] in H. revert H.
      rewrite resolveID_eq.
      destruct (String.eqb _ _).
      * destruct (GenerateIssueID _ _ _ _) as [c' [e2|g]]; [discriminate|].
        rewrite persist_eq.
        destruct (insertIssueStrict _ _) as [c2 [e2|]]; [discriminate|].
        destruct (recordCreatedEvent _ _ _) as [c3 [e2|]]; [discriminate|].
        destruct (markDirty _ _) as [c4 [e2|]]; discriminate.
      * assert (Hp : persist actor (mkTx c (prepared now i)) <> (s', inl (errConfig e))).
        { rewrite persist_eq.
          destruct (insertIssueStrict _ _) as [c2 [e2|]]; [discriminate|].
          destruct (recordCreatedEvent _ _ _) as [c3 [e2|]]; [discriminate|].
          destruct (markDirty _ _) as [c4 [e2|]]; discriminate. }
        destruct (negb skip); [|exact Hp].
        destruct (ValidateIssueIDPrefix _ _); [discriminate|exact Hp].
  - intros (-> & Hne & Hv). apply String.eqb_neq in Hv. rewrite Hv, orb_false_r.
    destruct e; [contradiction| |]; cbn [isErrNoRows]; eexists; reflexivity.
Qed.

(** ** The issue after a failed call *)

(** C10. When the call fails at the prefix read or at any later step, the
    caller's issue keeps what was assigned through the pointer before:
    the defaulted timestamps, the repaired [ClosedAt] and [DeletedAt], the
    computed [ContentHash] and, when the identifier had been generated
    before the failing step, that identifier.  Nothing is restored. *)
Theorem failure_keeps_mutations {Conn : Type} {B : Backend Conn}
    (now : Time.t) (actor : string) (skip : bool) (c : Conn) (i : Issue)
    (s' : Tx Conn) (e : error) :
  reachesConfig now c i ->
  CreateIssueImport now actor skip (mkTx c i) = (s', inl e) ->
  CreatedAt (issue s') = (if Time.IsZero (CreatedAt i) then now else CreatedAt i) /\
  UpdatedAt (issue s') = (if Time.IsZero (UpdatedAt i) then now else UpdatedAt i) /\
  (Status_ i = StatusClosed -> ClosedAt i = None ->
     ClosedAt (issue s') =
       Some (Time.Add (Z.max (CreatedAt (issue s')) (UpdatedAt (issue s'))) Time.Second)) /\
  (Status_ i = StatusTombstone -> DeletedAt i = None ->
     DeletedAt (issue s') =
       Some (Time.Add (Z.max (CreatedAt (issue s')) (UpdatedAt (issue s'))) Time.Second)) /\
  (ContentHash i = "" -> ContentHash (issue s') = ComputeContentHash (repaired now i)) /\
  (forall base c' g,
     reachesResolve now c i base -> ID i = "" ->
     GenerateIssueID c (effectivePrefix base i) (prepared now i) actor = (c', inr g) ->
     issue s' = set_ID g (prepared now i)) /\
  (ID i <> "" -> issue s' = prepared now i).
Proof.
  intros Hr Hrun.
  destruct (repaired_fields_after_config _ _ _ _ _ _ _ Hr Hrun) as (Hc & Hu & Hcl & Hd & Hh).
  rewrite Hc, Hu, Hcl, Hd, Hh. rewrite <- prepared_CreatedAt, <- prepared_UpdatedAt.
  split; [reflexivity|]. split; [reflexivity|].
  split; [apply prepared_ClosedAt|]. split; [apply prepared_DeletedAt|].
  split; [|split].
  - intros Hz. unfold prepared. rewrite computeHash_ContentHash.
    destruct (repaired_frame now i) as (_ & _ & _ & -> & _). rewrite Hz. reflexivity.
  - intros base c' g Hres Hid Hgen.
    rewrite (CreateIssueImport_resolve _ _ _ _ _ _ Hres), resolveID_eq,
      effectivePrefix_prepared in Hrun.
    destruct (prepared_frame now i) as (Hid' & _).
    rewrite Hid', Hid, Hgen in Hrun. cbn [String.eqb] in Hrun.
    rewrite persist_eq in Hrun.
    destruct (insertIssueStrict _ _) as [c1 [e1|]]; [injection Hrun as <- _; reflexivity|].
    destruct (recordCreatedEvent _ _ _) as [c2 [e1|]]; [injection Hrun as <- _; reflexivity|].
    destruct (markDirty _ _) as [c3 [e1|]]; [injection Hrun as <- _; reflexivity|].
    discriminate.
  - intros Hid.
    destruct (issue_after_config _ _ _ _ _ _ _ Hr Hrun) as [H|(H & _)]; [exact H|contradiction].
Qed.

Lemma failure_keeps_mutations_witness :
  let e := ErrMsg "disk I/O error" in
  let s' := fst (CreateIssueImport (B := Store.failingMarker e) Store.t0 "alice" false
                   (mkTx Store.proj Store.draft)) in
  snd (CreateIssueImport (B := Store.failingMarker e) Store.t0 "alice" false
         (mkTx Store.proj Store.draft))
    = inl (ErrWrap "failed to mark issue dirty" e) /\
  issue s' = mkIssue "PROJ-1" "Fix the importer|open|task" "Fix the importer" StatusOpen
               "task" Store.t0 Store.t0 None None "" /\
  issue s' <> Store.draft.
Proof.
  cbv zeta.
  assert (Hr : reachesResolve (B := Store.failingMarker (ErrMsg "disk I/O error"))
                 Store.t0 Store.proj Store.draft "PROJ").
  { split; [|split; [reflexivity|discriminate]].
    exists [], []. repeat split; reflexivity. }
  split; [vm_compute; reflexivity|].
  destruct (failure_keeps_mutations (B := Store.failingMarker (ErrMsg "disk I/O error"))
              Store.t0 "alice" false Store.proj Store.draft
              (fst (CreateIssueImport (B := Store.failingMarker (ErrMsg "disk I/O error"))
                      Store.t0 "alice" false (mkTx Store.proj Store.draft)))
              (ErrWrap "failed to mark issue dirty" (ErrMsg "disk I/O error"))
              (proj1 Hr))
    as (_ & _ & _ & _ & _ & Hgen & _).
  { vm_compute. reflexivity. }
  rewrite (Hgen "PROJ" Store.proj "PROJ-1" Hr eq_refl); [|vm_compute; reflexivity].
  split; [vm_compute; reflexivity|]. vm_compute. discriminate.
Defined.

(** ** The outcomes of a call *)

Section Outcomes.
Context {Conn : Type} {B : Backend Conn}.

Lemma resolveID_resolved now actor skip (c : Conn) (i : Issue) base c0 j :
  resolveID (effectivePrefix base (prepared now i)) actor skip (mkTx c (prepared now i))
    = (mkTx c0 j, inr tt) <->
  resolved now actor skip c i base c0 j.
Proof.
  rewrite resolveID_eq, effectivePrefix_prepared. unfold resolved.
  destruct (prepared_frame now i) as (-> & _).
  destruct (String.eqb_spec (ID i) "") as [Hz|Hz].
  - destruct (GenerateIssueID _ _ _ _) as [c' [e|g]].
    + split; [discriminate|].
      intros [(_ & g & [=] & _)|(Hne & _)]; contradiction.
    + split.
      * intros [= <- <-]. left. eauto.
      * intros [(_ & g' & [= <- <-] & ->)|(Hne & _)]; [reflexivity|contradiction].
  - destruct skip; cbn [negb].
    + split.
      * intros [= <- <-]. right. auto.
      * intros [(Hid & _)|(_ & -> & -> & _)]; [contradiction|reflexivity].
    + destruct (ValidateIssueIDPrefix _ _) as [e|].
      * split; [discriminate|].
        intros [(Hid & _)|(_ & _ & _ & [H|H])]; [contradiction|discriminate..].
      * split.
        -- intros [= <- <-]. right. auto.
        -- intros [(Hid & _)|(_ & -> & -> & _)]; [contradiction|reflexivity].
Qed.

Lemma Outcome_complete now actor skip (c : Conn) (i : Issue) :
  Outcome now actor skip c i
    (fst (CreateIssueImport now actor skip (mkTx c i)))
    (snd (CreateIssueImport now actor skip (mkTx c i))).
Proof.
  rewrite CreateIssueImport_eq.
  destruct (GetCustomStatuses c) as [e|sts] eqn:Hs; [apply OutStatuses; assumption|].
  destruct (GetCustomTypes c) as [e|tys] eqn:Ht; [eapply OutTypes; eassumption|].
  destruct (ValidateWithCustom (repaired now i) sts tys) as [e|] eqn:Hv;
    [eapply OutValidation; eassumption|].
  assert (Hr : reachesConfig now c i) by (exists sts, tys; auto).
  rewrite readConfigPrefix_eq.
  destruct (QueryConfig c "issue_prefix") as [v err] eqn:Hq.
  destruct (isErrNoRows err || String.eqb v "") eqn:Hz; [eapply OutNotInitialized; eassumption|].
  destruct err as [e|]; [eapply OutConfig; eassumption|].
  assert (Hres : reachesResolve now c i v).
  { split; [exact Hr|]. split; [exact Hq|].
    apply orb_false_elim in Hz as [_ Hz]. apply String.eqb_neq. exact Hz. }
  cbn [issue].
  destruct (resolveID _ _ _ _) as [[c0 j] [e|[]]] eqn:Hid.
  - rewrite resolveID_eq, effectivePrefix_prepared in Hid.
    destruct (prepared_frame now i) as (Hp & _). rewrite Hp in Hid.
    destruct (String.eqb_spec (ID i) "") as [Hi|Hi].
    + destruct (GenerateIssueID _ _ _ _) as [c' [e'|g]] eqn:Hg; [|discriminate].
      injection Hid as <- <- <-. eapply OutGenerate; eassumption.
    + destruct skip; [discriminate|]. cbn [negb] in Hid.
      destruct (ValidateIssueIDPrefix _ _) as [e'|] eqn:Hp'; [|discriminate].
      injection Hid as <- <- <-. eapply OutPrefix; first [eassumption|reflexivity].
  - apply resolveID_resolved in Hid. rewrite persist_eq.
    destruct (insertIssueStrict c0 j) as [c1 [e|]] eqn:H1; [eapply OutInsert; eassumption|].
    destruct (recordCreatedEvent c1 j actor) as [c2 [e|]] eqn:H2; [eapply OutEvent; eassumption|].
    destruct (markDirty c2 (ID j)) as [c3 [e|]] eqn:H3;
      [eapply OutMarker; eassumption|eapply OutDone; eassumption].
Qed.

Lemma Outcome_sound now actor skip (c : Conn) (i : Issue) s' r :
  Outcome now actor skip c i s' r ->
  CreateIssueImport now actor skip (mkTx c i) = (s', r).
Proof.
  assert (Hw : forall base c0 j,
             reachesResolve now c i base -> resolved now actor skip c i base c0 j ->
             CreateIssueImport now actor skip (mkTx c i) = persist actor (mkTx c0 j)).
  { intros base c0 j Hres Hid. apply resolveID_resolved in Hid.
    rewrite (CreateIssueImport_resolve _ _ _ _ _ _ Hres), Hid. reflexivity. }
  intros H. destruct H as
    [e Hs|sts e Hs Ht|sts tys e Hs Ht Hv|v err Hr Hq Hz|v e Hr Hq Hz
    |base c' e Hres Hi Hg|base e Hres Hi Hk Hp
    |base c0 j c1 e Hres Hid H1|base c0 j c1 c2 e Hres Hid H1 H2
    |base c0 j c1 c2 c3 e Hres Hid H1 H2 H3|base c0 j c1 c2 c3 Hres Hid H1 H2 H3].
  - rewrite CreateIssueImport_eq, Hs. reflexivity.
  - rewrite CreateIssueImport_eq, Hs, Ht. reflexivity.
  - rewrite CreateIssueImport_eq, Hs, Ht, Hv. reflexivity.
  - rewrite (CreateIssueImport_config _ _ _ _ _ Hr), readConfigPrefix_eq, Hq, Hz. reflexivity.
  - rewrite (CreateIssueImport_config _ _ _ _ _ Hr), readConfigPrefix_eq, Hq, Hz. reflexivity.
  - rewrite (CreateIssueImport_resolve _ _ _ _ _ _ Hres), resolveID_eq, effectivePrefix_prepared.
    destruct (prepared_frame now i) as (-> & _). rewrite Hi, Hg. reflexivity.
  - rewrite (CreateIssueImport_resolve _ _ _ _ _ _ Hres), resolveID_eq, effectivePrefix_prepared.
    destruct (prepared_frame now i) as (-> & _).
    apply String.eqb_neq in Hi. rewrite Hi, Hk, Hp. reflexivity.
  - rewrite (Hw _ _ _ Hres Hid), persist_eq, H1. reflexivity.
  - rewrite (Hw _ _ _ Hres Hid), persist_eq, H1, H2. reflexivity.
  - rewrite (Hw _ _ _ Hres Hid), persist_eq, H1, H2, H3. reflexivity.
  - rewrite (Hw _ _ _ Hres Hid), persist_eq, H1, H2, H3. reflexivity.
Qed.

End Outcomes.

(** X1. A call ends in exactly one of eleven ways, one per return statement
    of the routine: the function returns a state and a result if and only
    if one of the rules of [Outcome] derives them. *)
Theorem outcome_characterised {Conn : Type} {B : Backend Conn}
    (now : Time.t) (actor : string) (skip : bool) (c : Conn) (i : Issue)
    (s' : Tx Conn) (r : error + unit) :
  CreateIssueImport now actor skip (mkTx c i) = (s', r) <->
  Outcome now actor skip c i s' r.
Proof.
  split; [|apply Outcome_sound].
  intros H. pose proof (Outcome_complete now actor skip c i) as Ho.
  rewrite H in Ho. exact Ho.
Qed.

Section Inversion.
Context {Conn : Type} {B : Backend Conn}.

Lemma Outcome_of_run now actor skip (c : Conn) (i : Issue) s' r :
  CreateIssueImport now actor skip (mkTx c i) = (s', r) ->
  Outcome now actor skip c i s' r.
Proof.
  intros H. pose proof (Outcome_complete now actor skip c i) as Ho.
  rewrite H in Ho. exact Ho.
Qed.

(** The issue handed to the writes is the prepared one, up to its
    generated identifier. *)
Lemma resolved_issue now actor skip (c : Conn) (i : Issue) base c0 j :
  resolved now actor skip c i base c0 j ->
  (ID i <> "" /\ c0 = c /\ j = prepared now i) \/
  (ID i = "" /\ exists g, j = set_ID g (prepared now i)).
Proof.
  intros [(Hid & g & _ & ->)|(Hid & -> & -> & _)]; [right|left]; eauto.
Qed.

(** The four values the caller's issue can have after a call. *)
Lemma issue_cases now actor skip (c : Conn) (i : Issue) s' r :
  CreateIssueImport now actor skip (mkTx c i) = (s', r) ->
  issue s' = i \/ issue s' = repaired now i \/ issue s' = prepared now i \/
  (ID i = "" /\ exists g, issue s' = set_ID g (prepared now i)).
Proof.
  intros H. apply Outcome_of_run in H.
  destruct H; cbn [issue]; auto;
    match goal with
    | Hid : resolved _ _ _ _ _ _ _ _ |- _ =>
        destruct (resolved_issue _ _ _ _ _ _ _ _ Hid) as [(_ & _ & ->)|(Hz & g & ->)]; eauto 6
    end.
Qed.

Lemma repaired_kept now (i : Issue) :
  Title (repaired now i) = Title i /\ Status_ (repaired now i) = Status_ i /\
  IssueType (repaired now i) = IssueType i /\ IDPrefix (repaired now i) = IDPrefix i.
Proof.
  unfold repaired.
  destruct (fixDeletedAt_frame (fixClosedAt (setTimestamps now i)))
    as [_ (_ & -> & -> & -> & ->)].
  destruct (fixClosedAt_frame (setTimestamps now i)) as [_ (_ & -> & -> & -> & ->)].
  destruct (setTimestamps_frame now i) as [_ (_ & -> & -> & -> & ->)].
  tauto.
Qed.

Lemma prepared_kept now (i : Issue) :
  Title (prepared now i) = Title i /\ Status_ (prepared now i) = Status_ i /\
  IssueType (prepared now i) = IssueType i /\ IDPrefix (prepared now i) = IDPrefix i.
Proof.
  unfold prepared.
  destruct (computeHash_frame (repaired now i)) as [_ (_ & -> & -> & -> & ->)].
  apply repaired_kept.
Qed.

(** What the repairs do to the closing and deletion times. *)
Lemma repaired_ClosedAt_cases now (i : Issue) :
  (ClosedAt (repaired now i) = ClosedAt i /\
   (Status_ i = StatusClosed -> ClosedAt i <> None)) \/
  (Status_ i = StatusClosed /\ ClosedAt i = None /\
   ClosedAt (repaired now i) =
     Some (Time.Add (Z.max (CreatedAt (repaired now i)) (UpdatedAt (repaired now i)))
                    Time.Second)).
Proof.
  destruct (String.eqb_spec (Status_ i) StatusClosed) as [Hs|Hs].
  - destruct (ClosedAt i) as [t|] eqn:Hc.
    + left. split; [|discriminate].
      unfold repaired.
      destruct (fixDeletedAt_frame (fixClosedAt (setTimestamps now i)))
        as [(_ & _ & _ & ->) _].
      destruct (setTimestamps_frame now i) as [(_ & Hc' & _) _].
      unfold fixClosedAt. rewrite Hc', Hc, andb_false_r. congruence.
    + right. split; [exact Hs|]. split; [reflexivity|].
      destruct (repaired_frame now i) as (_ & _ & _ & _ & -> & -> & -> & _).
      apply prepared_ClosedAt; assumption.
  - left. split; [|contradiction].
    unfold repaired.
    destruct (fixDeletedAt_frame (fixClosedAt (setTimestamps now i)))
      as [(_ & _ & _ & ->) _].
    destruct (setTimestamps_frame now i) as [(_ & Hc' & _) (_ & _ & Hs' & _)].
    unfold fixClosedAt. rewrite Hs'. apply String.eqb_neq in Hs. rewrite Hs. exact Hc'.
Qed.

Lemma repaired_DeletedAt_cases now (i : Issue) :
  (DeletedAt (repaired now i) = DeletedAt i /\
   (Status_ i = StatusTombstone -> DeletedAt i <> None)) \/
  (Status_ i = StatusTombstone /\ DeletedAt i = None /\
   DeletedAt (repaired now i) =
     Some (Time.Add (Z.max (CreatedAt (repaired now i)) (UpdatedAt (repaired now i)))
                    Time.Second)).
Proof.
  destruct (String.eqb_spec (Status_ i) StatusTombstone) as [Hs|Hs].
  - destruct (DeletedAt i) as [t|] eqn:Hd.
    + left. split; [|discriminate].
      unfold repaired.
      destruct (fixClosedAt_frame (setTimestamps now i)) as [(_ & _ & _ & Hd1) _].
      destruct (setTimestamps_frame now i) as [(_ & _ & Hd0) _].
      unfold fixDeletedAt. rewrite Hd1, Hd0, Hd, andb_false_r. congruence.
    + right. split; [exact Hs|]. split; [reflexivity|].
      destruct (repaired_frame now i) as (_ & _ & _ & _ & -> & -> & _ & ->).
      apply prepared_DeletedAt; assumption.
  - left. split; [|contradiction].
    unfold repaired.
    destruct (fixClosedAt_frame (setTimestamps now i))
      as [(_ & _ & _ & Hd1) (_ & _ & Hs1 & _)].
    destruct (setTimestamps_frame now i) as [(_ & _ & Hd0) (_ & _ & Hs0 & _)].
    unfold fixDeletedAt. rewrite Hs1, Hs0. apply String.eqb_neq in Hs. rewrite Hs.
    cbn [andb]. congruence.
Qed.

(** Once the vocabulary is read, the repair-decided fields are those of the
    repaired issue. *)
Lemma repaired_fields_after_vocabulary now actor skip (c : Conn) (i : Issue) s' r :
  CreateIssueImport now actor skip (mkTx c i) = (s', r) ->
  (exists sts tys, GetCustomStatuses c = inr sts /\ GetCustomTypes c = inr tys) ->
  CreatedAt (issue s') = CreatedAt (repaired now i) /\
  UpdatedAt (issue s') = UpdatedAt (repaired now i) /\
  ClosedAt (issue s') = ClosedAt (repaired now i) /\
  DeletedAt (issue s') = DeletedAt (repaired now i) /\
  Status_ (issue s') = Status_ i.
Proof.
  intros Hrun (sts & tys & Hs & Ht).
  assert (Hvia : issue s' = repaired now i \/ issue s' = prepared now i \/
                 exists g, issue s' = set_ID g (prepared now i)).
  { apply Outcome_of_run in Hrun.
    destruct Hrun; cbn [issue]; try congruence; auto;
      match goal with
      | Hid : resolved _ _ _ _ _ _ _ _ |- _ =>
          destruct (resolved_issue _ _ _ _ _ _ _ _ Hid) as [(_ & _ & ->)|(_ & g & ->)]; eauto
      end. }
  destruct (repaired_frame now i) as (_ & _ & _ & _ & Hc & Hu & Hcl & Hd).
  destruct (repaired_kept now i) as (_ & Hst & _).
  destruct (prepared_kept now i) as (_ & Hst' & _).
  destruct Hvia as [->|[->|(g & ->)]]; cbn; rewrite <- ?Hc, <- ?Hu, <- ?Hcl, <- ?Hd; tauto.
Qed.

End Inversion.

(** ** Failures before the prefix read *)

(** X2. The call fails with the custom-statuses error exactly when that
    fetch fails, and with the custom-types error exactly when the statuses
    were read and the types fetch fails; each wraps the error of its fetch.
    When either fetch fails, the caller's issue and the connection are left
    exactly as they were handed in: nothing is defaulted or repaired. *)
Theorem vocabulary_failure_leaves_all_untouched {Conn : Type} {B : Backend Conn}
    (now : Time.t) (actor : string) (skip : bool) (c : Conn) (i : Issue)
    (s' : Tx Conn) (r : error + unit) :
  CreateIssueImport now actor skip (mkTx c i) = (s', r) ->
  (forall e, r = inl (ErrWrap "failed to get custom statuses" e) <->
             GetCustomStatuses c = inl e) /\
  (forall e, r = inl (ErrWrap "failed to get custom types" e) <->
             (exists sts, GetCustomStatuses c = inr sts) /\ GetCustomTypes c = inl e) /\
  ((exists e, GetCustomStatuses c = inl e) \/ (exists e, GetCustomTypes c = inl e) ->
   s' = mkTx c i).
Proof.
  intros Hrun. pose proof Hrun as Ho. apply Outcome_of_run in Ho.
  rewrite CreateIssueImport_eq in Hrun.
  split; [|split].
  - intros e. split.
    + intros ->. inversion Ho; subst; assumption.
    + intros He. rewrite He in Hrun. congruence.
  - intros e. split.
    + intros ->. inversion Ho; subst; eauto.
    + intros ((sts & Hs) & Ht). rewrite Hs, Ht in Hrun. congruence.
  - intros [(e & He)|(e & He)].
    + rewrite He in Hrun. congruence.
    + destruct (GetCustomStatuses c); [congruence|]. rewrite He in Hrun. congruence.
Qed.

Lemma vocabulary_failure_leaves_all_untouched_witness :
  CreateIssueImport (B := failingVocabulary (ErrMsg "database is locked"))
    Store.t0 "alice" false (mkTx Store.proj Store.closedIssue)
  = (mkTx Store.proj Store.closedIssue,
     inl (ErrWrap "failed to get custom statuses" (ErrMsg "database is locked"))).
Proof.
  destruct (CreateIssueImport (B := failingVocabulary (ErrMsg "database is locked"))
              Store.t0 "alice" false (mkTx Store.proj Store.closedIssue)) as [s' r] eqn:Hrun.
  destruct (vocabulary_failure_leaves_all_untouched
              (B := failingVocabulary (ErrMsg "database is locked"))
              _ _ _ _ _ _ _ Hrun) as (Hst & _ & Hsame).
  rewrite Hsame by (left; eexists; reflexivity).
  f_equal. apply Hst. reflexivity.
Defined.

(** X3. The call fails with the validation error exactly when both
    vocabularies were read and the validation of the repaired issue (the
    timestamps defaulted, the closing and deletion times set) turns it down;
    the error wraps the validator's.  The issue is then left repaired but
    its content hash and identifier are as handed in, and the connection is
    unchanged. *)
Theorem validation_failure_keeps_repairs_only {Conn : Type} {B : Backend Conn}
    (now : Time.t) (actor : string) (skip : bool) (c : Conn) (i : Issue)
    (s' : Tx Conn) (r : error + unit) (e : error) :
  CreateIssueImport now actor skip (mkTx c i) = (s', r) ->
  (r = inl (ErrWrap "validation failed" e) <->
   exists sts tys, GetCustomStatuses c = inr sts /\ GetCustomTypes c = inr tys /\
                   ValidateWithCustom (repaired now i) sts tys = Some e) /\
  (r = inl (ErrWrap "validation failed" e) ->
   s' = mkTx c (repaired now i) /\
   ContentHash (issue s') = ContentHash i /\ ID (issue s') = ID i).
Proof.
  intros Hrun. pose proof Hrun as Ho. apply Outcome_of_run in Ho.
  split.
  - split.
    + intros ->. inversion Ho; subst; eauto.
    + intros (sts & tys & Hs & Ht & Hv).
      rewrite CreateIssueImport_eq, Hs, Ht, Hv in Hrun. congruence.
  - intros ->. inversion Ho; subst. cbn [issue].
    destruct (repaired_frame now i) as (-> & _ & _ & -> & _). auto.
Qed.

Lemma validation_failure_keeps_repairs_only_witness :
  let i := mkIssue "PROJ-4" "" "Odd one" "bogus" "task" 0 0 None None "" in
  Store.create Store.t0 "alice" false (mkTx Store.proj i)
  = (mkTx Store.proj
       (mkIssue "PROJ-4" "" "Odd one" "bogus" "task" Store.t0 Store.t0 None None ""),
     inl (ErrWrap "validation failed" (ErrMsg "invalid status: bogus"))).
Proof.
  cbv zeta.
  destruct (Store.create Store.t0 "alice" false
              (mkTx Store.proj
                 (mkIssue "PROJ-4" "" "Odd one" "bogus" "task" 0 0 None None "")))
    as [s' r] eqn:Hrun.
  destruct (validation_failure_keeps_repairs_only (B := Store.backend)
              _ _ _ _ _ _ _ (ErrMsg "invalid status: bogus") Hrun) as ([_ Hr] & Hs).
  assert (Hfail : r = inl (ErrWrap "validation failed" (ErrMsg "invalid status: bogus"))).
  { apply Hr. exists [], []. repeat split; reflexivity. }
  destruct (Hs Hfail) as (-> & _). rewrite Hfail. reflexivity.
Defined.

(** ** What the routine never assigns *)

(** X4. Whatever the outcome, the call assigns through the issue pointer
    only to the two timestamps, the closing and deletion times, the content
    hash and the identifier: title, status, type and sub-namespace token
    are as handed in. *)
Theorem other_fields_never_assigned {Conn : Type} {B : Backend Conn}
    (now : Time.t) (actor : string) (skip : bool) (c : Conn) (i : Issue)
    (s' : Tx Conn) (r : error + unit) :
  CreateIssueImport now actor skip (mkTx c i) = (s', r) ->
  Title (issue s') = Title i /\ Status_ (issue s') = Status_ i /\
  IssueType (issue s') = IssueType i /\ IDPrefix (issue s') = IDPrefix i.
Proof.
  intros Hrun.
  destruct (issue_cases _ _ _ _ _ _ _ Hrun) as [->|[->|[->|(_ & g & ->)]]].
  - tauto.
  - apply repaired_kept.
  - apply prepared_kept.
  - cbn. apply prepared_kept.
Qed.

Lemma other_fields_never_assigned_witness :
  let s' := fst (Store.create Store.t0 "alice" false (mkTx Store.proj Store.webDraft)) in
  Title (issue s') = "Fix the importer" /\ Status_ (issue s') = StatusOpen /\
  IssueType (issue s') = "task" /\ IDPrefix (issue s') = "web".
Proof.
  apply (other_fields_never_assigned (B := Store.backend) Store.t0 "alice" false
           Store.proj Store.webDraft _
           (snd (Store.create Store.t0 "alice" false (mkTx Store.proj Store.webDraft)))).
  vm_compute. reflexivity.
Defined.

(** X5. Whatever the outcome, a value the caller supplied is never
    overwritten: a non-empty identifier, a non-empty content hash, a closing
    time and a deletion time that are set stay as they are; and the closing
    (deletion) time of an issue that is not closed (not a tombstone) is left
    alone, nil included. *)
Theorem supplied_values_never_overwritten {Conn : Type} {B : Backend Conn}
    (now : Time.t) (actor : string) (skip : bool) (c : Conn) (i : Issue)
    (s' : Tx Conn) (r : error + unit) :
  CreateIssueImport now actor skip (mkTx c i) = (s', r) ->
  (ID i <> "" -> ID (issue s') = ID i) /\
  (ContentHash i <> "" -> ContentHash (issue s') = ContentHash i) /\
  (ClosedAt i <> None -> ClosedAt (issue s') = ClosedAt i) /\
  (DeletedAt i <> None -> DeletedAt (issue s') = DeletedAt i) /\
  (Status_ i <> StatusClosed -> ClosedAt (issue s') = ClosedAt i) /\
  (Status_ i <> StatusTombstone -> DeletedAt (issue s') = DeletedAt i).
Proof.
  intros Hrun.
  assert (Hrep : (ClosedAt i <> None \/ Status_ i <> StatusClosed ->
                  ClosedAt (repaired now i) = ClosedAt i) /\
                 (DeletedAt i <> None \/ Status_ i <> StatusTombstone ->
                  DeletedAt (repaired now i) = DeletedAt i)).
  { split.
    - destruct (repaired_ClosedAt_cases now i) as [(-> & _)|(Hs & Hc & _)]; [tauto|].
      intros [H|H]; contradiction.
    - destruct (repaired_DeletedAt_cases now i) as [(-> & _)|(Hs & Hd & _)]; [tauto|].
      intros [H|H]; contradiction. }
  destruct Hrep as (Hcl & Hdl).
  destruct (repaired_frame now i) as (Hid & _ & _ & Hh & _ & _ & Hc & Hd).
  destruct (prepared_frame now i) as (Hid' & _).
  assert (Hh' : ContentHash i <> "" -> ContentHash (prepared now i) = ContentHash i).
  { intros Hne. unfold prepared. rewrite computeHash_ContentHash, Hh.
    apply String.eqb_neq in Hne. rewrite Hne. reflexivity. }
  destruct (issue_cases _ _ _ _ _ _ _ Hrun) as [->|[->|[->|(Hz & g & ->)]]].
  - tauto.
  - rewrite Hid, Hh. repeat split; auto.
  - rewrite <- Hc, <- Hd, Hid'. repeat split; auto.
  - destruct (set_ID_fields g (prepared now i)) as (_ & _ & -> & -> & ->).
    rewrite <- Hc, <- Hd. repeat split; auto. contradiction.
Qed.

Lemma supplied_values_never_overwritten_witness :
  let s' := fst (Store.create Store.t0 "alice" false (mkTx Store.proj archived)) in
  ID (issue s') = "PROJ-3" /\ ContentHash (issue s') = "cafe" /\
  ClosedAt (issue s') = Some Store.t2 /\ DeletedAt (issue s') = None.
Proof.
  cbv zeta.
  destruct (supplied_values_never_overwritten (B := Store.backend) Store.t0 "alice" false
              Store.proj archived _ _ eq_refl) as (Hid & Hh & Hc & _ & _ & Hd).
  split; [apply Hid; discriminate|].
  split; [apply Hh; discriminate|].
  split; [apply Hc; discriminate|apply Hd; discriminate].
Defined.

(** ** What holds of the issue once the vocabulary is read *)

(** X6. Once both vocabularies have been read, and whether or not the call
    then succeeds, the issue satisfies the invariants of a stored row: a
    closed issue has a closing time and a tombstone a deletion time; a
    closing or deletion time that the caller had left nil and the routine
    set is strictly later than both timestamps; and, the clock reading not
    being the zero instant, neither timestamp is zero. *)
Theorem row_invariants_after_vocabulary {Conn : Type} {B : Backend Conn}
    (now : Time.t) (actor : string) (skip : bool) (c : Conn) (i : Issue)
    (s' : Tx Conn) (r : error + unit) :
  CreateIssueImport now actor skip (mkTx c i) = (s', r) ->
  (exists sts tys, GetCustomStatuses c = inr sts /\ GetCustomTypes c = inr tys) ->
  (Status_ (issue s') = StatusClosed -> ClosedAt (issue s') <> None) /\
  (Status_ (issue s') = StatusTombstone -> DeletedAt (issue s') <> None) /\
  (forall t, ClosedAt i = None -> ClosedAt (issue s') = Some t ->
     (CreatedAt (issue s') < t)%Z /\ (UpdatedAt (issue s') < t)%Z) /\
  (forall t, DeletedAt i = None -> DeletedAt (issue s') = Some t ->
     (CreatedAt (issue s') < t)%Z /\ (UpdatedAt (issue s') < t)%Z) /\
  (Time.IsZero now = false ->
     Time.IsZero (CreatedAt (issue s')) = false /\
     Time.IsZero (UpdatedAt (issue s')) = false).
Proof.
  intros Hrun Hvoc.
  destruct (repaired_fields_after_vocabulary _ _ _ _ _ _ _ Hrun Hvoc)
    as (-> & -> & -> & -> & ->).
  split; [|split; [|split; [|split]]].
  - destruct (repaired_ClosedAt_cases now i) as [(-> & H)|(_ & _ & ->)]; [exact H|discriminate].
  - destruct (repaired_DeletedAt_cases now i) as [(-> & H)|(_ & _ & ->)]; [exact H|discriminate].
  - intros t Hn. destruct (repaired_ClosedAt_cases now i) as [(-> & _)|(_ & _ & ->)].
    + congruence.
    + intros [= <-]. unfold Time.Add, Time.Second. lia.
  - intros t Hn. destruct (repaired_DeletedAt_cases now i) as [(-> & _)|(_ & _ & ->)].
    + congruence.
    + intros [= <-]. unfold Time.Add, Time.Second. lia.
  - intros Hnow.
    destruct (repaired_frame now i) as (_ & _ & _ & _ & -> & -> & _).
    rewrite prepared_CreatedAt, prepared_UpdatedAt.
    destruct (Time.IsZero (CreatedAt i)) eqn:Hc, (Time.IsZero (UpdatedAt i)) eqn:Hu; auto.
Qed.

Lemma row_invariants_after_vocabulary_witness :
  let i := mkIssue "PROJ-5" "" "Closed, undated" StatusClosed "odd" 0 0 None None "" in
  let s' := fst (Store.create Store.t0 "alice" false (mkTx Store.proj i)) in
  snd (Store.create Store.t0 "alice" false (mkTx Store.proj i))
    = inl (ErrWrap "validation failed" (ErrMsg "invalid issue type: odd")) /\
  ClosedAt (issue s') <> None /\
  Time.IsZero (CreatedAt (issue s')) = false /\
  Time.IsZero (UpdatedAt (issue s')) = false.
Proof.
  cbv zeta. split; [vm_compute; reflexivity|].
  destruct (row_invariants_after_vocabulary (B := Store.backend) Store.t0 "alice" false
              Store.proj
              (mkIssue "PROJ-5" "" "Closed, undated" StatusClosed "odd" 0 0 None None "")
              _ _ eq_refl) as (Hc & _ & _ & _ & Hz).
  { exists [], []. split; reflexivity. }
  split; [apply Hc; vm_compute; reflexivity|].
  apply Hz. reflexivity.
Defined.

(** ** Success and the errors *)

(** X7. A call that returns nil has gone through every step: the prefix was
    read, the identifier settled, and the strict insert, the creation event
    and the dirty marker were each written without error, in this order,
    for the issue the caller now holds and under its final identifier.  No
    partial run is reported as a success. *)
Theorem success_means_all_written {Conn : Type} {B : Backend Conn}
    (now : Time.t) (actor : string) (skip : bool) (c : Conn) (i : Issue) (s' : Tx Conn) :
  CreateIssueImport now actor skip (mkTx c i) = (s', inr tt) ->
  exists base c0 c1 c2,
    reachesResolve now c i base /\
    resolved now actor skip c i base c0 (issue s') /\
    insertIssueStrict c0 (issue s') = (c1, None) /\
    recordCreatedEvent c1 (issue s') actor = (c2, None) /\
    markDirty c2 (ID (issue s')) = (conn s', None).
Proof.
  intros Hrun. apply Outcome_of_run in Hrun.
  inversion Hrun; subst. cbn [issue conn]. eauto 10.
Qed.

Lemma success_means_all_written_witness :
  let s' := fst (Store.create Store.t0 "alice" false (mkTx Store.proj Store.draft)) in
  exists base c0 c1 c2,
    reachesResolve (B := Store.backend) Store.t0 Store.proj Store.draft base /\
    resolved (B := Store.backend) Store.t0 "alice" false Store.proj Store.draft base c0
      (issue s') /\
    Store.insertStrict c0 (issue s') = (c1, None) /\
    Store.recordCreated c1 (issue s') "alice" = (c2, None) /\
    Store.markDirtyIssue c2 (ID (issue s')) = (conn s', None).
Proof.
  apply (success_means_all_written (B := Store.backend) Store.t0 "alice" false
           Store.proj Store.draft).
  vm_compute. reflexivity.
Defined.

(** X8. Every error the call returns names, by its message alone, the step
    that failed, and that step did fail: apart from the not-initialized
    message, the error wraps the very error the collaborator of that step
    returned.  No error of a collaborator is returned bare and none is
    mistaken for another step's. *)
Theorem error_names_failed_step {Conn : Type} {B : Backend Conn}
    (now : Time.t) (actor : string) (skip : bool) (c : Conn) (i : Issue)
    (s' : Tx Conn) (e : error) :
  CreateIssueImport now actor skip (mkTx c i) = (s', inl e) ->
  exists st, failedStep e = Some st /\
    match st with
    | StepStatuses => exists e', GetCustomStatuses c = inl e' /\ Unwrap e = Some e'
    | StepTypes => exists e', GetCustomTypes c = inl e' /\ Unwrap e = Some e'
    | StepValidation =>
        exists sts tys e',
          ValidateWithCustom (repaired now i) sts tys = Some e' /\ Unwrap e = Some e'
    | StepConfig =>
        (e = errNotInitialized /\
         (isErrNoRows (snd (QueryConfig c "issue_prefix")) = true \/
          fst (QueryConfig c "issue_prefix") = "")) \/
        (exists e', snd (QueryConfig c "issue_prefix") = Some e' /\ Unwrap e = Some e')
    | StepGenerate =>
        exists p c' e',
          GenerateIssueID c p (prepared now i) actor = (c', inl e') /\ Unwrap e = Some e'
    | StepPrefix =>
        exists p e', ValidateIssueIDPrefix (ID i) p = Some e' /\ Unwrap e = Some e'
    | StepInsert =>
        exists c0 e', insertIssueStrict c0 (issue s') = (conn s', Some e') /\
                      Unwrap e = Some e'
    | StepEvent =>
        exists c1 e', recordCreatedEvent c1 (issue s') actor = (conn s', Some e') /\
                      Unwrap e = Some e'
    | StepMarker =>
        exists c2 e', markDirty c2 (ID (issue s')) = (conn s', Some e') /\
                      Unwrap e = Some e'
    end.
Proof.
  intros Hrun. apply Outcome_of_run in Hrun.
  inversion Hrun; subst; cbn [issue conn].
  - exists StepStatuses. split; [reflexivity|]. eauto.
  - exists StepTypes. split; [reflexivity|]. eauto.
  - exists StepValidation. split; [reflexivity|]. eauto 6.
  - exists StepConfig. split; [reflexivity|]. left. split; [reflexivity|].
    match goal with Hq : QueryConfig _ _ = _ |- _ => rewrite Hq end. cbn [fst snd].
    match goal with Hz : _ || _ = true |- _ => apply orb_true_iff in Hz; destruct Hz end;
      [left; assumption|right; apply String.eqb_eq; assumption].
  - exists StepConfig. split; [reflexivity|]. right.
    match goal with Hq : QueryConfig _ _ = _ |- _ => rewrite Hq end. cbn [fst snd]. eauto.
  - exists StepGenerate. split; [reflexivity|]. eauto 6.
  - exists StepPrefix. split; [reflexivity|]. eauto 6.
  - exists StepInsert. split; [reflexivity|]. eauto 6.
  - exists StepEvent. split; [reflexivity|]. eauto 6.
  - exists StepMarker. split; [reflexivity|]. eauto 6.
Qed.

Lemma error_names_failed_step_witness :
  exists st,
    failedStep (ErrWrap "failed to mark issue dirty" (ErrMsg "disk I/O error")) = Some st /\
    st = StepMarker.
Proof.
  destruct (error_names_failed_step (B := Store.failingMarker (ErrMsg "disk I/O error"))
              Store.t0 "alice" false Store.proj Store.draft
              (fst (CreateIssueImport (B := Store.failingMarker (ErrMsg "disk I/O error"))
                      Store.t0 "alice" false (mkTx Store.proj Store.draft)))
              (ErrWrap "failed to mark issue dirty" (ErrMsg "disk I/O error")))
    as (st & Hst & _).
  { vm_compute. reflexivity. }
  exists st. split; [exact Hst|]. vm_compute in Hst. congruence.
Defined.

(** X9. A call that fails at a step other than the identifier generation
    and the three writes (the two vocabulary fetches, the validation, the
    prefix read, the prefix check) leaves the connection exactly as it was:
    the routine writes nothing of its own before the insert. *)
Theorem no_write_before_persistence {Conn : Type} {B : Backend Conn}
    (now : Time.t) (actor : string) (skip : bool) (c : Conn) (i : Issue)
    (s' : Tx Conn) (e : error) (st : Step) :
  CreateIssueImport now actor skip (mkTx c i) = (s', inl e) ->
  failedStep e = Some st ->
  mayWrite st = false ->
  conn s' = c.
Proof.
  intros Hrun Hst Hw. apply Outcome_of_run in Hrun.
  inversion Hrun; subst; cbn [conn]; try reflexivity;
    cbn in Hst; injection Hst as <-; discriminate Hw.
Qed.

Lemma no_write_before_persistence_witness :
  conn (fst (Store.create Store.t0 "alice" false (mkTx importedOnce Store.foreign)))
    = importedOnce.
Proof.
  apply (no_write_before_persistence (B := Store.backend) Store.t0 "alice" false
           importedOnce Store.foreign _
           (errPrefixValidation
              (ErrMsg "issue ID OTHER-1 does not match configured prefix PROJ"))
           StepPrefix).
  - vm_compute. reflexivity.
  - reflexivity.
  - reflexivity.
Defined.

(** ** The skip flag *)

(** X10. [skipPrefixValidation] changes nothing when the issue arrives
    without an identifier, nor when the prefix check accepts the identifier
    at the effective prefix: the two calls return the same error or nil and
    leave the same issue and connection. *)
Theorem skip_flag_irrelevant {Conn : Type} {B : Backend Conn}
    (now : Time.t) (actor : string) (c : Conn) (i : Issue) :
  ID i = "" \/
  ValidateIssueIDPrefix (ID i) (effectivePrefix (fst (QueryConfig c "issue_prefix")) i)
    = None ->
  CreateIssueImport now actor true (mkTx c i) = CreateIssueImport now actor false (mkTx c i).
Proof.
  intros Hcase. rewrite !CreateIssueImport_eq.
  destruct (GetCustomStatuses c) as [e|sts]; [reflexivity|].
  destruct (GetCustomTypes c) as [e|tys]; [reflexivity|].
  destruct (ValidateWithCustom (repaired now i) sts tys); [reflexivity|].
  rewrite readConfigPrefix_eq.
  destruct (QueryConfig c "issue_prefix") as [v err]. cbn [fst] in Hcase.
  destruct (isErrNoRows err || String.eqb v ""); [reflexivity|].
  destruct err as [e|]; [reflexivity|].
  cbn [issue]. rewrite !resolveID_eq, effectivePrefix_prepared.
  destruct (prepared_frame now i) as (-> & _).
  destruct (String.eqb_spec (ID i) "") as [Hz|Hz]; [reflexivity|].
  destruct Hcase as [Hid|Hok]; [contradiction|].
  cbn [negb]. rewrite Hok. reflexivity.
Qed.

Lemma skip_flag_irrelevant_witness :
  Store.create Store.t0 "alice" true (mkTx Store.proj Store.closedIssue)
  = Store.create Store.t0 "alice" false (mkTx Store.proj Store.closedIssue) /\
  Store.create Store.t0 "alice" true (mkTx Store.proj Store.draft)
  = Store.create Store.t0 "alice" false (mkTx Store.proj Store.draft).
Proof.
  split.
  - apply (skip_flag_irrelevant (B := Store.backend)). right. vm_compute. reflexivity.
  - apply (skip_flag_irrelevant (B := Store.backend)). left. reflexivity.
Defined.

(** ** Importing twice *)

Lemma setTimestamps_fixed now (j : Issue) :
  Time.IsZero (CreatedAt j) = false -> Time.IsZero (UpdatedAt j) = false ->
  setTimestamps now j = j.
Proof.
  intros Hc Hu. unfold setTimestamps. rewrite Hc, Hu. reflexivity.
Qed.

Lemma fixClosedAt_fixed (j : Issue) :
  (Status_ j = StatusClosed -> ClosedAt j <> None) -> fixClosedAt j = j.
Proof.
  intros H. unfold fixClosedAt.
  destruct (String.eqb_spec (Status_ j) StatusClosed) as [Hs|Hs]; [|reflexivity].
  destruct (ClosedAt j); [reflexivity|]. destruct (H Hs). reflexivity.
Qed.

Lemma fixDeletedAt_fixed (j : Issue) :
  (Status_ j = StatusTombstone -> DeletedAt j <> None) -> fixDeletedAt j = j.
Proof.
  intros H. unfold fixDeletedAt.
  destruct (String.eqb_spec (Status_ j) StatusTombstone) as [Hs|Hs]; [|reflexivity].
  destruct (DeletedAt j); [reflexivity|]. destruct (H Hs). reflexivity.
Qed.

Lemma fixClosedAt_set (j : Issue) :
  Status_ j = StatusClosed -> ClosedAt (fixClosedAt j) <> None.
Proof.
  intros Hs. unfold fixClosedAt. rewrite Hs. cbn [String.eqb].
  destruct (ClosedAt j) eqn:Hc; cbn; [congruence|discriminate].
Qed.

Lemma fixDeletedAt_set (j : Issue) :
  Status_ j = StatusTombstone -> DeletedAt (fixDeletedAt j) <> None.
Proof.
  intros Hs. unfold fixDeletedAt. rewrite Hs. cbn [String.eqb].
  destruct (DeletedAt j) eqn:Hd; cbn; [congruence|discriminate].
Qed.

(** X11. The defaulting and the two repairs are idempotent: applied at any
    later instant to an issue they have already been applied to, with a
    clock reading that was not the zero instant, they change nothing.  An
    issue exported after its import is imported again with the same
    timestamps, closing time and deletion time. *)
Theorem repairs_idempotent (now now' : Time.t) (i : Issue) :
  Time.IsZero now = false ->
  setTimestamps now' (repaired now i) = repaired now i /\
  fixClosedAt (repaired now i) = repaired now i /\
  fixDeletedAt (repaired now i) = repaired now i /\
  repaired now' (repaired now i) = repaired now i.
Proof.
  intros Hnow.
  pose proof (fixDeletedAt_frame (fixClosedAt (setTimestamps now i))) as
    [(_ & Hc2 & Hu2 & Hcl2) (_ & _ & Hs2 & _)].
  pose proof (fixClosedAt_frame (setTimestamps now i)) as
    [(_ & Hc1 & Hu1 & Hd1) (_ & _ & Hs1 & _)].
  pose proof (setTimestamps_frame now i) as [_ (_ & _ & Hs0 & _)].
  fold (repaired now i) in Hc2, Hu2, Hcl2, Hs2.
  assert (Ht : setTimestamps now' (repaired now i) = repaired now i).
  { apply setTimestamps_fixed.
    - rewrite Hc2, Hc1, setTimestamps_CreatedAt.
      destruct (Time.IsZero (CreatedAt i)) eqn:Hz; [exact Hnow|exact Hz].
    - rewrite Hu2, Hu1, setTimestamps_UpdatedAt.
      destruct (Time.IsZero (UpdatedAt i)) eqn:Hz; [exact Hnow|exact Hz]. }
  assert (Hc : fixClosedAt (repaired now i) = repaired now i).
  { apply fixClosedAt_fixed. rewrite Hs2, Hs1, Hcl2. intros Hs.
    apply fixClosedAt_set. exact Hs. }
  assert (Hd : fixDeletedAt (repaired now i) = repaired now i).
  { apply fixDeletedAt_fixed. rewrite Hs2. intros Hs.
    apply fixDeletedAt_set. exact Hs. }
  repeat split; try assumption.
  unfold repaired at 1. rewrite Ht, Hc, Hd. reflexivity.
Qed.

Lemma repairs_idempotent_witness :
  repaired Store.t2 (repaired Store.t0 Store.closedIssue) = repaired Store.t0 Store.closedIssue /\
  repaired Store.t2 (repaired Store.t0 Store.draft) = repaired Store.t0 Store.draft.
Proof.
  split; apply (repairs_idempotent Store.t0 Store.t2); reflexivity.
Defined.

(** ** The wrapped prefix-read error *)

Lemma read_failure_wrapped_iff_witness :
  exists s',
    CreateIssueImport (B := scanning "PROJ" (Some (ErrMsg "rows closed with an error")))
      Store.t0 "alice" false (mkTx Store.proj Store.draft)
    = (s', inl (errConfig (ErrMsg "rows closed with an error"))).
Proof.
  apply (read_failure_wrapped_iff
           (B := scanning "PROJ" (Some (ErrMsg "rows closed with an error")))
           Store.t0 "alice" false Store.proj Store.draft "PROJ"
           (Some (ErrMsg "rows closed with an error"))).
  - exists [], []. repeat split; reflexivity.
  - reflexivity.
  - split; [reflexivity|]. split; discriminate.
Defined.

(** ** The content hash *)

(** X13. Once the validation has passed, and whether or not the call then
    succeeds, the content hash of the issue is the one handed in when that
    was not empty, and otherwise the fingerprint computed of the repaired
    issue, that is, after the timestamps were defaulted and the closing and
    deletion times set, and before an identifier was generated. *)
Theorem content_hash_of_repaired_issue {Conn : Type} {B : Backend Conn}
    (now : Time.t) (actor : string) (skip : bool) (c : Conn) (i : Issue)
    (s' : Tx Conn) (r : error + unit) :
  reachesConfig now c i ->
  CreateIssueImport now actor skip (mkTx c i) = (s', r) ->
  ContentHash (issue s') =
    (if String.eqb (ContentHash i) "" then ComputeContentHash (repaired now i)
     else ContentHash i) /\
  ID (repaired now i) = ID i.
Proof.
  intros Hr Hrun.
  destruct (repaired_fields_after_config _ _ _ _ _ _ _ Hr Hrun) as (_ & _ & _ & _ & ->).
  unfold prepared. rewrite computeHash_ContentHash.
  destruct (repaired_frame now i) as (-> & _ & _ & -> & _). auto.
Qed.

Lemma content_hash_of_repaired_issue_witness :
  let s' := fst (Store.create Store.t0 "alice" false (mkTx Store.proj Store.draft)) in
  ID (issue s') = "PROJ-1" /\
  ContentHash (issue s') = Store.computeContentHash (repaired Store.t0 Store.draft).
Proof.
  cbv zeta. split; [vm_compute; reflexivity|].
  apply (content_hash_of_repaired_issue (B := Store.backend) Store.t0 "alice" false
           Store.proj Store.draft _
           (snd (Store.create Store.t0 "alice" false (mkTx Store.proj Store.draft)))).
  - exists [], []. repeat split; reflexivity.
  - vm_compute. reflexivity.
Defined.
